(** * Session store of the game backend: a shallow embedding

    Source files embedded here:
    - [backend/app/db.py]             the connection provider,
    - [backend/app/state_manager.py]  the session store,
    - [scripts/init_db.py]            the schema of table [game_sessions].

    Library calls of the store ([json.dumps], [json.loads], the DB-API
    cursor, [time.time]) are modelled next to the code that uses them. *)

From Stdlib Require Import ZArith Ascii String DecimalN DecimalFacts.
From stdpp Require Import base option list strings.

Set Warnings "-register-all".
Local Open Scope char_scope.
Local Open Scope list_scope.

(** ** Python values

    The documents handled by the store are Python dicts with string keys;
    their leaves are the values [json] can write, or any other object
    ([PObject]: a set, bytes, a class instance) for which [json.dumps]
    raises [TypeError].  A dict keeps its keys in insertion order, which is
    the order [json.dumps] writes them in.  Numbers are integers: floats
    (and with them NaN and Infinity) are outside the fragment, and the clock
    is read in integer ticks. *)

Inductive pyval : Type :=
| PNone
| PBool (b : bool)
| PInt (z : Z)
| PStr (s : string)
| PList (l : list pyval)
| PDict (d : list (string * pyval))
| PObject (repr : string).

Abbreviation pydict := (list (string * pyval)).

Section pyval_induction.
Variable P : pyval -> Prop.
Hypothesis HNone : P PNone.
Hypothesis HBool : forall b, P (PBool b).
Hypothesis HInt : forall z, P (PInt z).
Hypothesis HStr : forall s, P (PStr s).
Hypothesis HList : forall l, Forall P l -> P (PList l).
Hypothesis HDict : forall d, Forall (fun kv => P (snd kv)) d -> P (PDict d).
Hypothesis HObject : forall r, P (PObject r).

Fixpoint pyval_nested_ind (v : pyval) : P v :=
  match v with
  | PNone => HNone
  | PBool b => HBool b
  | PInt z => HInt z
  | PStr s => HStr s
  | PList l =>
      HList l ((fix items (l : list pyval) : Forall P l :=
                  match l with
                  | [] => @List.Forall_nil _ P
                  | x :: l' => @List.Forall_cons _ P x l' (pyval_nested_ind x) (items l')
                  end) l)
  | PDict d =>
      HDict d ((fix members (d : pydict) : Forall (fun kv => P (snd kv)) d :=
                  match d with
                  | [] => @List.Forall_nil _ _
                  | kv :: d' =>
                      @List.Forall_cons _ (fun kv => P (snd kv)) kv d'
                        (pyval_nested_ind (snd kv)) (members d')
                  end) d)
  | PObject r => HObject r
  end.
End pyval_induction.

(** Truth value of an object, as [if x:] and [not x] test it. *)
Definition truthy (v : pyval) : bool :=
  match v with
  | PNone => false
  | PBool b => b
  | PInt z => negb (z =? 0)%Z
  | PStr s => negb (String.eqb s EmptyString)
  | PList l => match l with [] => false | _ => true end
  | PDict d => match d with [] => false | _ => true end
  | PObject _ => true
  end.

(** [d[k] = v]: an existing key keeps its place, a new key goes last. *)
Fixpoint dict_set (k : string) (v : pyval) (d : pydict) : pydict :=
  match d with
  | [] => [(k, v)]
  | (k', v') :: d' =>
      if String.eqb k k' then (k, v) :: d' else (k', v') :: dict_set k v d'
  end.

(** [d.get(k)]: [None] when the key is missing. *)
Fixpoint dict_get (k : string) (d : pydict) : option pyval :=
  match d with
  | [] => None
  | (k', v') :: d' => if String.eqb k k' then Some v' else dict_get k d'
  end.

(** [dict(pairs)], as [json.loads] builds an object from its members. *)
Definition dict_of_pairs (ps : pydict) : pydict :=
  fold_left (fun d kv => dict_set (fst kv) (snd kv) d) ps [].

(** Keys of a dict are distinct, at every level. *)
Fixpoint wf (v : pyval) : Prop :=
  match v with
  | PList l => (fix all (l : list pyval) : Prop :=
                  match l with [] => True | x :: l' => wf x /\ all l' end) l
  | PDict d => NoDup (map fst d)
               /\ (fix all (d : pydict) : Prop :=
                     match d with [] => True | kv :: d' => wf (snd kv) /\ all d' end) d
  | _ => True
  end.

(** ** [json.dumps(v, ensure_ascii=False)] *)

Module Json.

Definition chars (s : string) : list ascii := list_ascii_of_string s.

Definition quote : ascii := "034".
Definition backslash : ascii := "\".

Definition hex_digit (n : N) : ascii :=
  match n with
  | 0 => "0" | 1 => "1" | 2 => "2" | 3 => "3" | 4 => "4" | 5 => "5"
  | 6 => "6" | 7 => "7" | 8 => "8" | 9 => "9" | 10 => "a" | 11 => "b"
  | 12 => "c" | 13 => "d" | 14 => "e" | _ => "f"
  end%N.

(** [ESCAPE_DCT] of [json.encoder]: the quote, the backslash and the control
    characters are escaped, every other character is written as it is. *)
Definition escape_char (c : ascii) : list ascii :=
  match c with
  | "034" => [backslash; quote]
  | "\" => [backslash; backslash]
  | "010" => [backslash; "n"]
  | "013" => [backslash; "r"]
  | "009" => [backslash; "t"]
  | "008" => [backslash; "b"]
  | "012" => [backslash; "f"]
  | _ =>
      let n := N_of_ascii c in
      if (n <? 32)%N
      then [backslash; "u"; "0"; "0"; hex_digit (n / 16); hex_digit (n mod 16)]
      else [c]
  end.

Fixpoint escape (s : string) : list ascii :=
  match s with
  | EmptyString => []
  | String c s' => escape_char c ++ escape s'
  end.

Definition encode_str (s : string) : list ascii := quote :: escape s ++ [quote].

Fixpoint uint_chars (u : Decimal.uint) : list ascii :=
  match u with
  | Decimal.Nil => []
  | Decimal.D0 u => "0" :: uint_chars u
  | Decimal.D1 u => "1" :: uint_chars u
  | Decimal.D2 u => "2" :: uint_chars u
  | Decimal.D3 u => "3" :: uint_chars u
  | Decimal.D4 u => "4" :: uint_chars u
  | Decimal.D5 u => "5" :: uint_chars u
  | Decimal.D6 u => "6" :: uint_chars u
  | Decimal.D7 u => "7" :: uint_chars u
  | Decimal.D8 u => "8" :: uint_chars u
  | Decimal.D9 u => "9" :: uint_chars u
  end.

Definition encode_int (z : Z) : list ascii :=
  match z with
  | Z0 => ["0"]
  | Zpos p => uint_chars (Pos.to_uint p)
  | Zneg p => "-" :: uint_chars (Pos.to_uint p)
  end.

(** The encoder: [None] stands for the [TypeError] raised on an object that
    is not serializable.  Items are joined with [", "], a key and its value
    with [": "] (the default separators). *)
Fixpoint encode (v : pyval) : option (list ascii) :=
  match v with
  | PNone => Some (chars "null")
  | PBool true => Some (chars "true")
  | PBool false => Some (chars "false")
  | PInt z => Some (encode_int z)
  | PStr s => Some (encode_str s)
  | PList l =>
      match l with
      | [] => Some (chars "[]")
      | x :: l' =>
          e ← encode x;
          es ← (fix items (l : list pyval) : option (list ascii) :=
                  match l with
                  | [] => Some ["]"]
                  | y :: l'' =>
                      e' ← encode y;
                      es' ← items l'';
                      Some (chars ", " ++ e' ++ es')
                  end) l';
          Some ("[" :: e ++ es)
      end
  | PDict d =>
      match d with
      | [] => Some (chars "{}")
      | (k, x) :: d' =>
          e ← encode x;
          es ← (fix members (d : pydict) : option (list ascii) :=
                  match d with
                  | [] => Some ["}"]
                  | (k', y) :: d'' =>
                      e' ← encode y;
                      es' ← members d'';
                      Some (chars ", " ++ encode_str k' ++ chars ": " ++ e' ++ es')
                  end) d';
          Some ("{" :: encode_str k ++ chars ": " ++ e ++ es)
      end
  | PObject _ => None
  end.

(** The loops of the encoder, named. *)
Fixpoint encode_items (l : list pyval) : option (list ascii) :=
  match l with
  | [] => Some ["]"]
  | y :: l' =>
      e ← encode y; es ← encode_items l'; Some (chars ", " ++ e ++ es)
  end.

Fixpoint encode_members (d : pydict) : option (list ascii) :=
  match d with
  | [] => Some ["}"]
  | (k, y) :: d' =>
      e ← encode y; es ← encode_members d';
      Some (chars ", " ++ encode_str k ++ chars ": " ++ e ++ es)
  end.

Definition dumps (v : pyval) : option string :=
  string_of_list_ascii <$> encode v.

(** ** [json.loads(s)]

    The decoder follows [json.decoder] and [json.scanner]: white space is
    skipped between tokens, strings are scanned in strict mode (a raw
    control character is an error), an integer is an optional minus sign and either a single 0 or digits
    that do not start with 0, and
    the members of an object go through [dict], so that the last of two
    equal keys wins.  [None] stands for [JSONDecodeError].  Literals outside
    the fragment (a fraction or an exponent, NaN, Infinity, an escape above
    [\u00ff]) are answered [None] as well. *)

Definition is_ws (c : ascii) : bool :=
  match c with
  | " " | "009" | "010" | "013" => true
  | _ => false
  end.

Fixpoint skip_ws (s : list ascii) : list ascii :=
  match s with
  | c :: r => if is_ws c then skip_ws r else s
  | [] => []
  end.

(** The value of a hexadecimal digit, in either case. *)
Definition hex_value (c : ascii) : option N :=
  let n := N_of_ascii c in
  if (48 <=? n)%N && (n <=? 57)%N then Some (n - 48)%N
  else if (97 <=? n)%N && (n <=? 102)%N then Some (n - 87)%N
  else if (65 <=? n)%N && (n <=? 70)%N then Some (n - 55)%N
  else None.

Definition code_point (a b c d : ascii) : option N :=
  x ← hex_value a; y ← hex_value b; z ← hex_value c; w ← hex_value d;
  Some (((x * 16 + y) * 16 + z) * 16 + w)%N.

(** [BACKSLASH] of [json.decoder]. *)
Definition unescape (e : ascii) : option ascii :=
  match e with
  | "034" => Some quote
  | "\" => Some backslash
  | "/" => Some "/"
  | "b" => Some "008"
  | "f" => Some "012"
  | "n" => Some "010"
  | "r" => Some "013"
  | "t" => Some "009"
  | _ => None
  end.

(** [py_scanstring], from the character after the opening quote. *)
Fixpoint scan_string (s : list ascii) : option (string * list ascii) :=
  match s with
  | [] => None
  | "034" :: r => Some (EmptyString, r)
  | "\" :: [] => None
  | "\" :: "u" :: r =>
      match r with
      | a :: b :: c :: d :: r' =>
          n ← code_point a b c d;
          if (n <? 256)%N
          then '(str, r'') ← scan_string r'; Some (String (ascii_of_N n) str, r'')
          else None
      | _ => None
      end
  | "\" :: e :: r =>
      c ← unescape e;
      '(str, r') ← scan_string r; Some (String c str, r')
  | c :: r =>
      if (N_of_ascii c <? 32)%N then None
      else '(str, r') ← scan_string r; Some (String c str, r')
  end.

Definition digit (c : ascii) : option (Decimal.uint -> Decimal.uint) :=
  match c with
  | "0" => Some Decimal.D0 | "1" => Some Decimal.D1 | "2" => Some Decimal.D2
  | "3" => Some Decimal.D3 | "4" => Some Decimal.D4 | "5" => Some Decimal.D5
  | "6" => Some Decimal.D6 | "7" => Some Decimal.D7 | "8" => Some Decimal.D8
  | "9" => Some Decimal.D9
  | _ => None
  end.

Fixpoint scan_digits (s : list ascii) : Decimal.uint * list ascii :=
  match s with
  | [] => (Decimal.Nil, [])
  | c :: r =>
      match digit c with
      | Some f => let '(u, r') := scan_digits r in (f u, r')
      | None => (Decimal.Nil, s)
      end
  end.

(** What follows the integer part makes the literal a float. *)
Definition float_follows (s : list ascii) : bool :=
  match s with
  | "." :: _ | "e" :: _ | "E" :: _ => true
  | _ => false
  end.

Definition scan_nat (s : list ascii) : option (N * list ascii) :=
  let '(u, r) := scan_digits s in
  match u with
  | Decimal.Nil => None
  | Decimal.D0 (Decimal.Nil) => if float_follows r then None else Some (0%N, r)
  | Decimal.D0 _ => None
  | _ => if float_follows r then None else Some (N.of_uint u, r)
  end.

Definition scan_int (s : list ascii) : option (pyval * list ascii) :=
  match s with
  | "-" :: r => '(n, r') ← scan_nat r; Some (PInt (- Z.of_N n), r')
  | _ => '(n, r') ← scan_nat s; Some (PInt (Z.of_N n), r')
  end.

(** [scan_once], [JSONArray] and [JSONObject].  The first argument bounds
    the number of nested calls.  A call is nested in another only after a
    character of the text was consumed, so [decode] starts the bound above
    the length of the text. *)
Fixpoint parse_value (n : nat) (s : list ascii) {struct n}
  : option (pyval * list ascii) :=
  match n with
  | O => None
  | S n =>
      match s with
      | "034" :: r => '(str, r') ← scan_string r; Some (PStr str, r')
      | "[" :: r =>
          match skip_ws r with
          | "]" :: r' => Some (PList [], r')
          | r' =>
              '(v, r1) ← parse_value n r';
              '(vs, r2) ← parse_items n r1;
              Some (PList (v :: vs), r2)
          end
      | "{" :: r =>
          match skip_ws r with
          | "}" :: r' => Some (PDict [], r')
          | "034" :: r' =>
              '(k, r1) ← scan_string r';
              match skip_ws r1 with
              | ":" :: r2 =>
                  '(v, r3) ← parse_value n (skip_ws r2);
                  '(kvs, r4) ← parse_members n r3;
                  Some (PDict (dict_of_pairs ((k, v) :: kvs)), r4)
              | _ => None
              end
          | _ => None
          end
      | "n" :: "u" :: "l" :: "l" :: r => Some (PNone, r)
      | "t" :: "r" :: "u" :: "e" :: r => Some (PBool true, r)
      | "f" :: "a" :: "l" :: "s" :: "e" :: r => Some (PBool false, r)
      | _ => scan_int s
      end
  end
with parse_items (n : nat) (s : list ascii) {struct n}
  : option (list pyval * list ascii) :=
  match n with
  | O => None
  | S n =>
      match skip_ws s with
      | "]" :: r => Some ([], r)
      | "," :: r =>
          '(v, r1) ← parse_value n (skip_ws r);
          '(vs, r2) ← parse_items n r1;
          Some (v :: vs, r2)
      | _ => None
      end
  end
with parse_members (n : nat) (s : list ascii) {struct n}
  : option (pydict * list ascii) :=
  match n with
  | O => None
  | S n =>
      match skip_ws s with
      | "}" :: r => Some ([], r)
      | "," :: r =>
          match skip_ws r with
          | "034" :: r' =>
              '(k, r1) ← scan_string r';
              match skip_ws r1 with
              | ":" :: r2 =>
                  '(v, r3) ← parse_value n (skip_ws r2);
                  '(kvs, r4) ← parse_members n r3;
                  Some ((k, v) :: kvs, r4)
              | _ => None
              end
          | _ => None
          end
      | _ => None
      end
  end.

(** [JSONDecoder.decode]: one value, white space around it, nothing else. *)
Definition decode (s : list ascii) : option pyval :=
  '(v, r) ← parse_value (S (length s)) (skip_ws s);
  match skip_ws r with
  | [] => Some v
  | _ => None
  end.

Definition loads (s : string) : option pyval := decode (chars s).

(** What may come after a value in a text the encoder wrote. *)
Definition follow_ok (rest : list ascii) : Prop :=
  match rest with
  | [] => True
  | c :: _ => c = "," \/ c = "]" \/ c = "}"
  end.

(** The first character of an encoded value. *)
Definition starters : list ascii :=
  [quote; "["; "{"; "n"; "t"; "f"; "-";
   "0"; "1"; "2"; "3"; "4"; "5"; "6"; "7"; "8"; "9"].

(** [v] is read back from the text the encoder wrote for it. *)
Definition reads_back (v : pyval) : Prop :=
  forall e, encode v = Some e ->
  forall n rest, length e <= n -> follow_ok rest ->
  parse_value n (e ++ rest) = Some (v, rest).

End Json.

(** ** The process: objects, table, effects

    Python objects that the store receives, returns or mutates live in a
    heap and are passed by reference; [None] is the only value passed as it
    is.  The table is [game_sessions] of [scripts/init_db.py]: [player_id]
    is the primary key, [session_data] a nullable text, [last_modified] a
    time stamp kept by the server. *)

Abbreviation loc := nat.

(** A Python reference: [None] or an object of the heap. *)
Definition pyref := option loc.

Record row := Row {
  player_id : string;
  session_data : option string;
  last_modified : Z
}.

Inductive exn :=
| TypeError
| AttributeError
| KeyError
| UnboundLocalError (name : string)
| JSONDecodeError
| DatabaseError.       (* sqlite3.Error, mysql.connector.Error *)

Inductive result (A : Type) :=
| Val (a : A)
| Exc (e : exn).
Arguments Val {A} a.
Arguments Exc {A} e.

Inductive statement :=
| SelectSession (player_id : string)
| UpsertSession (player_id session_str : string)
| SelectRecent (limit : Z).

Inductive level := ERROR | WARNING | INFO.

Inductive message :=
| PoolNotInitialized
| UnsupportedScheme (scheme : string)
| ConnectionFailed (e : exn)
| GetSessionFailed (player_id : string) (e : exn)
| SaveSessionFailed (player_id : string) (e : exn)
| RecentSessionsFailed (e : exn)
| SessionCleared (player_id : string)
| FlagNonExistent (player_id : string)
| PlayerFlagged (player_id level reason : string).

(** The coroutines handed to [asyncio.gather]; both hold the document by
    reference. *)
Inductive task :=
| SendJsonToPlayer (player_id : string) (data : loc)
| BroadcastStateUpdate (player_id : string) (data : loc).

Inductive event :=
| Log (l : level) (m : message)
| Executed (q : statement)
| Committed
| Gather (tasks : list task)
| CursorClosed
| ConnClosed.

Record cursor := Cursor {
  dictionary : bool;
  rows : list row
}.

Record world := World {
  heap : list pyval;               (* objects, by address *)
  table : list row;                (* committed rows of game_sessions *)
  pending : option (list row);     (* rows as the open transaction sees them *)
  cursor_var : option cursor;      (* local variable [cursor] of the running call *)
  trace : list event               (* effects so far, oldest first *)
}.

(** ** What the process does not decide

    [config] is fixed at start: the scheme of [settings.DATABASE_URL] and
    the module variable [db_pool] as [initialize_db_pool] left it.  A
    [backend] says how the database behaves during one operation. *)

Inductive pool := GamePool.

Record config := Config {
  scheme : string;
  db_pool : option pool
}.

Inductive step := AtCursor | AtExecute | AtCommit.

Inductive fault :=
| Healthy
| LinkLost (s : step)       (* the connection is lost before step [s] *)
| ExecuteRejected           (* the server answers the statement with an error *)
| CommitRejected.           (* the server answers the commit with an error *)

Record backend := Backend {
  connect_ok : bool;        (* [sqlite3.connect] / [db_pool.get_connection] returns *)
  failure : fault;
  db_now : Z                (* CURRENT_TIMESTAMP of the server *)
}.

Inductive conn := SqliteConn | MySQLConn.

Definition step_index (s : step) : nat :=
  match s with AtCursor => 0 | AtExecute => 1 | AtCommit => 2 end.

Definition step_ok (f : fault) (s : step) : bool :=
  match f with
  | Healthy => true
  | LinkLost s' => Nat.ltb (step_index s) (step_index s')
  | ExecuteRejected => match s with AtExecute => false | _ => true end
  | CommitRejected => match s with AtCommit => false | _ => true end
  end.

(** [conn.is_connected()], asked when the operation is over. *)
Definition is_connected (b : backend) : bool :=
  match failure b with
  | LinkLost _ => false
  | _ => true
  end.

(** ** Statements on [game_sessions] *)

Definition matching (pid : string) (t : list row) : list row :=
  filter (fun r => String.eqb (player_id r) pid = true) t.

(** INSERT ... ON DUPLICATE KEY UPDATE session_data = VALUES(session_data):
    the time stamp of the row follows an insert and a change of the text. *)
Fixpoint upsert (pid blob : string) (now : Z) (t : list row) : list row :=
  match t with
  | [] => [Row pid (Some blob) now]
  | r :: t' =>
      if String.eqb (player_id r) pid
      then (if decide (session_data r = Some blob) then r
            else Row pid (Some blob) now) :: t'
      else r :: upsert pid blob now t'
  end.

Fixpoint insert_desc (r : row) (sorted : list row) : list row :=
  match sorted with
  | [] => [r]
  | x :: sorted' =>
      if (last_modified x <? last_modified r)%Z then r :: sorted
      else x :: insert_desc r sorted'
  end.

(** ORDER BY last_modified DESC LIMIT [limit]. *)
Definition most_recent (limit : Z) (t : list row) : list row :=
  take (Z.to_nat limit) (foldr insert_desc [] t).

(** ** The monad of the embedding: state and exceptions *)

Definition M (A : Type) : Type := world -> result A * world.

#[global] Instance M_ret : MRet M := fun A a w => (Val a, w).
#[global] Instance M_bind : MBind M := fun A B k m w =>
  match m w with
  | (Val a, w') => k a w'
  | (Exc e, w') => (Exc e, w')
  end.

Definition raise {A : Type} (e : exn) : M A := fun w => (Exc e, w).

(** [try: m  except <caught> as e: h e] *)
Definition try_except {A : Type} (caught : exn -> bool) (m : M A) (h : exn -> M A)
  : M A := fun w =>
  match m w with
  | (Exc e, w') => if caught e then h e w' else (Exc e, w')
  | r => r
  end.

(** [try: m  finally: f]: an exception of [f] replaces the outcome of [m]. *)
Definition try_finally {A : Type} (m : M A) (f : M unit) : M A := fun w =>
  let '(r, w1) := m w in
  match f w1 with
  | (Val _, w2) => (r, w2)
  | (Exc e, w2) => (Exc e, w2)
  end.

(** A call runs in a frame of its own, with a connection of its own:
    [cursor] starts unbound and no transaction is open. *)
Definition call {A : Type} (body : M A) : M A := fun w =>
  let '(r, w') :=
    body (World (heap w) (table w) None None (trace w)) in
  (r, World (heap w') (table w') (pending w) (cursor_var w) (trace w')).

Definition emit (e : event) : M unit := fun w =>
  (Val tt, World (heap w) (table w) (pending w) (cursor_var w) (trace w ++ [e])).

Definition any_exception (e : exn) : bool := true.

Definition database_error (e : exn) : bool :=
  match e with DatabaseError => true | _ => false end.

(** *** Objects *)

Definition alloc (v : pyval) : M loc := fun w =>
  (Val (length (heap w)),
   World (heap w ++ [v]) (table w) (pending w) (cursor_var w) (trace w)).

Definition deref (l : loc) : M pyval := fun w =>
  (Val (default PNone (heap w !! l)), w).

(** [obj[k] = v]: only a dict takes a string key. *)
Definition setitem (l : loc) (k : string) (v : pyval) : M unit := fun w =>
  match heap w !! l with
  | Some (PDict d) =>
      (Val tt, World (<[l := PDict (dict_set k v d)]> (heap w))
                 (table w) (pending w) (cursor_var w) (trace w))
  | _ => (Exc TypeError, w)
  end.

(** [bool(x)] of a reference. *)
Definition truth (x : pyref) : M bool :=
  match x with
  | None => mret false
  | Some l => v ← deref l; mret (truthy v)
  end.

(** [json.dumps(obj, ensure_ascii=False)] *)
Definition json_dumps (l : loc) : M string :=
  v ← deref l;
  match Json.dumps v with
  | Some s => mret s
  | None => raise TypeError
  end.

(** [json.loads(s)]: a new object, or [None] for the text [null]. *)
Definition json_loads (s : string) : M pyref :=
  match Json.loads s with
  | Some PNone => mret None
  | Some v => l ← alloc v; mret (Some l)
  | None => raise JSONDecodeError
  end.

(** *** The DB-API *)

(** [cursor = conn.cursor(...)] *)
Definition conn_cursor (b : backend) (c : conn) (dict : bool) : M unit := fun w =>
  if step_ok (failure b) AtCursor
  then (Val tt, World (heap w) (table w) (pending w)
                  (Some (Cursor dict [])) (trace w))
  else (Exc DatabaseError, w).

Definition visible (w : world) : list row := default (table w) (pending w).

(** [cursor.execute(query, params)].  Every query of the store is written
    with the [%s] markers of MySQL, which [sqlite3] refuses; MySQL refuses
    a negative LIMIT. *)
Definition execute (b : backend) (c : conn) (q : statement) : M unit := fun w =>
  match cursor_var w with
  | None => (Exc (UnboundLocalError "cursor"), w)
  | Some cur =>
      if negb (step_ok (failure b) AtExecute) then (Exc DatabaseError, w)
      else
        match c with
        | SqliteConn => (Exc DatabaseError, w)
        | MySQLConn =>
            match q with
            | SelectSession pid =>
                (Val tt, World (heap w) (table w) (pending w)
                           (Some (Cursor (dictionary cur) (matching pid (visible w))))
                           (trace w ++ [Executed q]))
            | UpsertSession pid blob =>
                (Val tt, World (heap w) (table w)
                           (Some (upsert pid blob (db_now b) (visible w)))
                           (Some (Cursor (dictionary cur) []))
                           (trace w ++ [Executed q]))
            | SelectRecent limit =>
                if (limit <? 0)%Z then (Exc DatabaseError, w)
                else
                  (Val tt, World (heap w) (table w) (pending w)
                             (Some (Cursor (dictionary cur) (most_recent limit (visible w))))
                             (trace w ++ [Executed q]))
            end
        end
  end.

(** [cursor.fetchone()] *)
Definition fetchone : M (option row) := fun w =>
  match cursor_var w with
  | None => (Exc (UnboundLocalError "cursor"), w)
  | Some cur =>
      (Val (head (rows cur)),
       World (heap w) (table w) (pending w)
         (Some (Cursor (dictionary cur) (tail (rows cur)))) (trace w))
  end.

(** [cursor.fetchall()] *)
Definition fetchall : M (list row) := fun w =>
  match cursor_var w with
  | None => (Exc (UnboundLocalError "cursor"), w)
  | Some cur =>
      (Val (rows cur),
       World (heap w) (table w) (pending w)
         (Some (Cursor (dictionary cur) [])) (trace w))
  end.

(** [conn.commit()] *)
Definition commit (b : backend) (c : conn) : M unit := fun w =>
  if step_ok (failure b) AtCommit
  then (Val tt, World (heap w) (visible w) None (cursor_var w)
                  (trace w ++ [Committed]))
  else (Exc DatabaseError, w).

(** [cursor.close()] *)
Definition cursor_close : M unit := fun w =>
  match cursor_var w with
  | None => (Exc (UnboundLocalError "cursor"), w)
  | Some _ => (Val tt, World (heap w) (table w) (pending w) (cursor_var w)
                         (trace w ++ [CursorClosed]))
  end.

(** [conn.close()]: what was not committed is rolled back. *)
Definition conn_close (c : conn) : M unit := fun w =>
  (Val tt, World (heap w) (table w) None (cursor_var w) (trace w ++ [ConnClosed])).

(** The [finally] clause shared by the operations of the store:
[[
    if conn and hasattr(conn, 'is_connected') and conn.is_connected():
        cursor.close()
        conn.close()
    elif conn:
        conn.close()
]]
    Only the MySQL connection has [is_connected]. *)
Definition release (b : backend) (c : conn) : M unit :=
  match c with
  | MySQLConn =>
      if is_connected b then cursor_close ;; conn_close c else conn_close c
  | SqliteConn => conn_close c
  end.

(** ** [backend/app/db.py] *)

Section Store.

(** [settings.DATABASE_URL] with the pool, and [security.encrypt_player_id],
    whose module is not part of the sources at hand. *)
Variable cfg : config.
Variable encrypt_player_id : string -> string.

Definition log (l : level) (m : message) : M unit := emit (Log l m).

(** [sqlite3.connect(db_path)] and [db_pool.get_connection()] *)
Definition connect (b : backend) (c : conn) : M conn :=
  if connect_ok b then mret c else raise DatabaseError.

(** [get_db_connection()]: a connection, or [None] after a logged error. *)
Definition get_db_connection (b : backend) : M (option conn) :=
  try_except database_error
    (if String.eqb (scheme cfg) "sqlite" then
       conn ← connect b SqliteConn; mret (Some conn)
     else if String.eqb (scheme cfg) "mysql" then
       match db_pool cfg with
       | None => log ERROR PoolNotInitialized ;; mret None
       | Some _ => conn ← connect b MySQLConn; mret (Some conn)
       end
     else
       log ERROR (UnsupportedScheme (scheme cfg)) ;; mret None)
    (fun e => log ERROR (ConnectionFailed e) ;; mret None).

(** ** [backend/app/state_manager.py] *)

(** ['mysql' in str(type(conn)).lower()] *)
Definition is_mysql (c : conn) : bool :=
  match c with MySQLConn => true | SqliteConn => false end.

Definition get_session (b : backend) (player_id : string) : M pyref :=
  call (
    conn ← get_db_connection b;
    match conn with
    | None => mret None
    | Some conn =>
        try_finally
          (try_except any_exception
             (conn_cursor b conn (is_mysql conn) ;;
              execute b conn (SelectSession player_id) ;;
              row ← fetchone;
              match row with
              | Some row =>
                  match session_data row with
                  | Some session_data =>
                      if negb (String.eqb session_data "")
                      then json_loads session_data
                      else mret None
                  | None => mret None
                  end
              | None => mret None
              end)
             (fun e => log ERROR (GetSessionFailed player_id e) ;; mret None))
          (release b conn)
    end).

(** [asyncio.gather( *tasks)], not awaited: the tasks are scheduled. *)
Definition gather (tasks : list task) : M unit := emit (Gather tasks).

(** [now] is the reading of [time.time()]. *)
Definition save_session (b : backend) (now : Z)
    (player_id : string) (session_data : loc) : M unit :=
  call (
    conn ← get_db_connection b;
    match conn with
    | None => mret tt
    | Some conn =>
        try_finally
          (try_except any_exception
             (setitem session_data "last_modified" (PInt now) ;;
              session_str ← json_dumps session_data;
              conn_cursor b conn false ;;
              execute b conn (UpsertSession player_id session_str) ;;
              commit b conn ;;
              gather [SendJsonToPlayer player_id session_data;
                      BroadcastStateUpdate player_id session_data])
             (fun e => log ERROR (SaveSessionFailed player_id e)))
          (release b conn)
    end).

Definition create_or_get_session (b1 b2 : backend) (now : Z)
    (player_id : string) : M pyref :=
  session ← get_session b1 player_id;
  match session with
  | None =>
      session ← alloc (PDict []);
      save_session b2 now player_id session ;;
      mret (Some session)
  | Some _ => mret session
  end.

(** [obj.get(k, dflt)]: only a dict has the method. *)
Definition get_method (x : pyref) (k : string) (dflt : pyval) : M pyval :=
  match x with
  | None => raise AttributeError
  | Some l =>
      v ← deref l;
      match v with
      | PDict d => mret (default dflt (dict_get k d))
      | _ => raise AttributeError
      end
  end.

(** The items a [for] loop draws from an object. *)
Definition iterate (v : pyval) : M (list pyval) :=
  match v with
  | PList l => mret l
  | PDict d => mret (map (fun kv => PStr (fst kv)) d)
  | PStr s => mret (map (fun c => PStr (String c EmptyString)) (list_ascii_of_string s))
  | _ => raise TypeError
  end.

(** [x == s] for a string [s]: only an equal string is equal to it. *)
Definition equals_str (x : option pyval) (s : string) : bool :=
  match x with
  | Some (PStr s') => String.eqb s' s
  | _ => false
  end.

(** [[item["content"] for item in history if item.get("role") == "user"]] *)
Fixpoint user_contents (history : list pyval) : M (list pyval) :=
  match history with
  | [] => mret []
  | item :: history' =>
      match item with
      | PDict d =>
          if equals_str (dict_get "role" d) "user" then
            match dict_get "content" d with
            | Some content =>
                contents ← user_contents history'; mret (content :: contents)
            | None => raise KeyError
            end
          else user_contents history'
      | _ => raise AttributeError
      end
  end.

(** [xs[start:]] *)
Definition slice_from {A : Type} (start : Z) (xs : list A) : list A :=
  let len := Z.of_nat (length xs) in
  let i := if (start <? 0)%Z then Z.max (len + start) 0 else Z.min start len in
  drop (Z.to_nat i) xs.

Definition get_last_n_inputs (b : backend) (player_id : string) (n : Z)
  : M (list pyval) :=
  session ← get_session b player_id;
  t ← truth session;
  if negb t then mret []
  else
    history ← get_method session "internal_history" (PList []);
    items ← iterate history;
    inputs ← user_contents items;
    mret (slice_from (- n) inputs).

Record summary := Summary {
  summary_player_id : string;
  summary_display_name : string;
  summary_last_modified : pyval
}.

Definition char_at (i : nat) (s : string) : string :=
  match String.get i s with
  | Some c => String c EmptyString
  | None => EmptyString
  end.

(** [f"{player_id[0]}...{player_id[-1]}" if len(player_id) > 2 else player_id] *)
Definition display_name (player_id : string) : string :=
  if Nat.ltb 2 (String.length player_id)
  then char_at 0 player_id +:+ "..." +:+ char_at (String.length player_id - 1) player_id
  else player_id.

(** [str(x)] of a column value. *)
Definition str_of_column (x : option string) : string :=
  match x with
  | Some s => s
  | None => "None"
  end.

(** The loop over the fetched rows, [results] being the list built so far. *)
Fixpoint summarize (rows : list row) (results : list summary) : M (list summary) :=
  match rows with
  | [] => mret results
  | row :: rows' =>
      let player_id := player_id row in
      session_data ← json_loads (str_of_column (session_data row));
      let encrypted_id := encrypt_player_id player_id in
      let display_name := display_name player_id in
      last ← get_method session_data "last_modified" (PInt 0);
      summarize rows' (results ++ [Summary encrypted_id display_name last])
  end.

Definition get_most_recent_sessions (b : backend) (limit : Z) : M (list summary) :=
  call (
    conn ← get_db_connection b;
    match conn with
    | None => mret []
    | Some conn =>
        try_finally
          (try_except any_exception
             (conn_cursor b conn (is_mysql conn) ;;
              execute b conn (SelectRecent limit) ;;
              rows ← fetchall;
              summarize rows [])
             (fun e => log ERROR (RecentSessionsFailed e) ;; mret []))
          (release b conn)
    end).

Definition clear_session (b : backend) (now : Z) (player_id : string) : M unit :=
  session ← alloc (PDict []);
  save_session b now player_id session ;;
  log INFO (SessionCleared player_id).

Definition flag_player_for_punishment (b1 b2 : backend) (now : Z)
    (player_id level reason : string) : M unit :=
  session ← get_session b1 player_id;
  t ← truth session;
  if negb t then log WARNING (FlagNonExistent player_id)
  else
    match session with
    | None => raise TypeError
    | Some l =>
        setitem l "pending_punishment"
          (PDict [("level"%string, PStr level); ("reason"%string, PStr reason)]) ;;
        save_session b2 now player_id l ;;
        log INFO (PlayerFlagged player_id level reason)
    end.

End Store.

(** Running an operation from a world: the outcome and the world after. *)
Definition outcome {A : Type} (m : M A) (w : world) : result A := fst (m w).
Definition after {A : Type} (m : M A) (w : world) : world := snd (m w).

(** The events an operation adds to the trace. *)
Definition events {A : Type} (m : M A) (w : world) : list event :=
  drop (length (trace w)) (trace (after m w)).

(** ** Vocabulary of the statements *)

(** The row a SELECT by primary key returns. *)
Definition lookup_row (pid : string) (t : list row) : option row :=
  head (matching pid t).

(** A MySQL deployment whose pool was built, and an operation during which
    the database answers every request. *)
Definition operational (cfg : config) (b : backend) : Prop :=
  scheme cfg = "mysql"%string /\ db_pool cfg = Some GamePool
  /\ connect_ok b = true /\ failure b = Healthy.

(** [get_db_connection] hands out a connection. *)
Definition acquires (cfg : config) (b : backend) : bool :=
  (String.eqb (scheme cfg) "sqlite"
   || String.eqb (scheme cfg) "mysql" && bool_decide (db_pool cfg <> None))
  && connect_ok b.

(** How many times the sinks were dispatched to. *)
Fixpoint dispatches (tr : list event) : nat :=
  match tr with
  | [] => 0
  | Gather _ :: tr' => S (dispatches tr')
  | _ :: tr' => dispatches tr'
  end.

(** How many writes reached the database: statements that change rows, and
    commits. *)
Fixpoint writes (tr : list event) : nat :=
  match tr with
  | [] => 0
  | Executed (UpsertSession _ _) :: tr' => S (writes tr')
  | Committed :: tr' => S (writes tr')
  | _ :: tr' => writes tr'
  end.

(** No dispatch comes before a commit: [committed] tells whether a commit
    was seen already. *)
Fixpoint dispatch_follows_commit (committed : bool) (tr : list event) : bool :=
  match tr with
  | [] => true
  | Committed :: tr' => dispatch_follows_commit true tr'
  | Gather _ :: tr' => committed && dispatch_follows_commit committed tr'
  | _ :: tr' => dispatch_follows_commit committed tr'
  end.

(** The error messages in a trace. *)
Fixpoint errors (tr : list event) : list message :=
  match tr with
  | [] => []
  | Log ERROR m :: tr' => m :: errors tr'
  | _ :: tr' => errors tr'
  end.

(** The text [save_session] would write for the object at [doc] at time
    [now], if there is one. *)
Definition stamped_text (now : Z) (doc : loc) (w : world) : option string :=
  match heap w !! doc with
  | Some (PDict d) => Json.dumps (PDict (dict_set "last_modified" (PInt now) d))
  | _ => None
  end.

(** Every step of a save goes through: the connection is handed out, the
    document is written as text, the server takes the statement and the
    commit. *)
Definition save_goes_through (cfg : config) (b : backend) (now : Z)
    (doc : loc) (w : world) : bool :=
  acquires cfg b
  && bool_decide (is_Some (stamped_text now doc w))
  && String.eqb (scheme cfg) "mysql"
  && step_ok (failure b) AtCursor
  && step_ok (failure b) AtExecute
  && step_ok (failure b) AtCommit.

(** What [save_session] leaves behind: the heap, the table and the outcome
    of the call. *)
Definition stamped_heap (cfg : config) (b : backend) (now : Z) (doc : loc)
    (w : world) : list pyval :=
  if acquires cfg b then
    match heap w !! doc with
    | Some (PDict d) =>
        <[doc := PDict (dict_set "last_modified" (PInt now) d)]> (heap w)
    | _ => heap w
    end
  else heap w.

Definition saved_table (cfg : config) (b : backend) (now : Z) (pid : string)
    (doc : loc) (w : world) : list row :=
  if save_goes_through cfg b now doc w then
    match stamped_text now doc w with
    | Some blob => upsert pid blob (db_now b) (table w)
    | None => table w
    end
  else table w.

Definition save_outcome (cfg : config) (b : backend) (now : Z) (doc : loc)
    (w : world) : result unit :=
  if acquires cfg b && String.eqb (scheme cfg) "mysql" && is_connected b
     && negb (bool_decide (is_Some (stamped_text now doc w)))
  then Exc (UnboundLocalError "cursor")
  else Val tt.

(** A world that differs from [w] in the heap and the trace only. *)
Definition grown (w : world) (hp : list pyval) (evs : list event) : world :=
  World hp (table w) (pending w) (cursor_var w) (trace w ++ evs).

(** The inputs of the player in a history of [{role, content}] entries:
    the [content] of the entries whose [role] is ["user"], in order. *)
Definition entry_input (e : pydict) : option pyval :=
  if equals_str (dict_get "role" e) "user" then dict_get "content" e else None.

Definition user_inputs (history : list pydict) : list pyval :=
  omap entry_input history.

(** The summary of a row, when its text decodes to an object. *)
Definition summary_of (encrypt_player_id : string -> string) (r : row)
  : option summary :=
  match Json.loads (str_of_column (session_data r)) with
  | Some (PDict d) =>
      Some (Summary (encrypt_player_id (player_id r))
                    (display_name (player_id r))
                    (default (PInt 0) (dict_get "last_modified" d)))
  | _ => None
  end.

(** The connection a deployment works with. *)
Definition conn_of (cfg : config) : conn :=
  if String.eqb (scheme cfg) "sqlite" then SqliteConn else MySQLConn.

(** The failures of acquisition that the design distinguishes. *)
Inductive acquire_error := PoolUnavailable | ConnectionError | UnsupportedBackend.

Definition acquire_failure (cfg : config) (b : backend) : option acquire_error :=
  if String.eqb (scheme cfg) "sqlite" then
    if connect_ok b then None else Some ConnectionError
  else if String.eqb (scheme cfg) "mysql" then
    match db_pool cfg with
    | None => Some PoolUnavailable
    | Some _ => if connect_ok b then None else Some ConnectionError
    end
  else Some UnsupportedBackend.

Definition logged_for (cfg : config) (err : acquire_error) : message :=
  match err with
  | PoolUnavailable => PoolNotInitialized
  | ConnectionError => ConnectionFailed DatabaseError
  | UnsupportedBackend => UnsupportedScheme (scheme cfg)
  end.

(** ** A deployment and a few worlds to run the operations on *)

Module Sample.
Local Open Scope string_scope.

Definition mysql_deployment : config := Config "mysql" (Some GamePool).

(** The database answers; its clock shows 100. *)
Definition answering : backend := Backend true Healthy 100.

(** The pool refuses to lend a connection. *)
Definition refusing : backend := Backend false Healthy 100.

Definition encrypt (player_id : string) : string := "enc:" +:+ player_id.

Definition empty_world : world := World [] [] None None [].

(** One document in the heap, at address 0, and an empty table. *)
Definition document : pydict :=
  [("hp", PInt 3);
   ("internal_history",
    PList [PDict [("role", PStr "user"); ("content", PStr "a")];
           PDict [("role", PStr "bot"); ("content", PStr "b")];
           PDict [("role", PStr "user"); ("content", PStr "c")]])].

Definition one_document : world := World [PDict document] [] None None [].

(** The world after that document was saved for alice at time 42. *)
Definition alice_saved : world :=
  after (save_session mysql_deployment answering 42 "alice" 0) one_document.

(** A document that holds an object [json] cannot write. *)
Definition unserializable : world :=
  World [PDict [("inventory", PObject "set()")]] [] None None [].

(** A row whose text is not JSON. *)
Definition corrupt_row : row := Row "bob" (Some "{oops") 7.
Definition corrupt_world : world := World [] [corrupt_row] None None [].

(** A row whose text is the empty object, written after bob's. *)
Definition empty_object_row : row := Row "carol" (Some "{}") 9.
Definition empty_object_world : world := World [] [empty_object_row] None None [].

(** A good row next to a corrupt one. *)
Definition mixed_world : world :=
  World [] [corrupt_row; empty_object_row] None None [].

End Sample.

(** ** Start-up: [initialize_db_pool] and [scripts/init_db.py]

    Neither touches the heap or the rows of the store; both are written as
    functions from what the environment answers to what they leave behind
    and the effects they had, oldest first. *)

Module Startup.

(** What [urlparse] makes of a URL, as far as the code reads it. *)
Record parsed_url := ParsedUrl {
  url_scheme : string;
  hostname : option string;
  port : option Z;
  username : option string;
  password : option string;
  path : string
}.

Inductive pool_event :=
| PoolInitialized (pool_name : string) (pool_size : nat)
| PoolInitFailed.

Inductive init_exn := ValueError | MySQLError.

Inductive attempt (A : Type) :=
| Returned (a : A)
| Raised (e : init_exn).
Arguments Returned {A} a.
Arguments Raised {A} e.

Record db_config := DbConfig {
  config_host : option string;
  config_port : option Z;
  config_user : option string;
  config_password : option string;
  config_database : string
}.

Inductive init_message :=
| Attempting
| ConnectedToDatabase
| AttemptFailed (number max : nat)
| ExecutingCreateTable
| TableReady
| NoConnection
| InitializationFailed (e : init_exn)
| ConnectionClosed.

Inductive init_event :=
| InitLog (l : level) (m : init_message)
| Connect (attempt : nat)
| Sleep (seconds : nat)
| CreateTable
| InitCommit
| InitCursorClosed
| InitConnClosed.

(** How the loop of connection attempts ends: with a connection, with the
    last error raised again, or with the range used up. *)
Inductive loop_end := Connected | GaveUp | RangeDone.

(** What the script answers to: the variable [DATABASE_URL], whether the
    server accepts the connection attempt of a given number (from 0), and
    how the server behaves once connected. *)
Record server := Server {
  env_url : option string;
  accepts : nat -> bool;
  once_connected : fault
}.

Definition max_retries : nat := 10.
Definition retry_delay : nat := 5.

(** [s.lstrip('/')] *)
Fixpoint lstrip_slash (s : string) : string :=
  match s with
  | String c s' => if Ascii.eqb c "/" then lstrip_slash s' else s
  | EmptyString => EmptyString
  end.

(** CREATE TABLE IF NOT EXISTS game_sessions: [None] is a database without
    the table. *)
Definition create_if_absent (schema : option (list row)) : option (list row) :=
  Some (default [] schema).

Section Scripts.

Variable urlparse : string -> parsed_url.

(** [db.initialize_db_pool()]: the new value of the module variable
    [db_pool], and what was logged.  [construct_ok] tells whether
    [MySQLConnectionPool] returns. *)
Definition initialize_db_pool (database_url : string) (construct_ok : bool)
    (db_pool : option pool) : option pool * list pool_event :=
  if String.eqb (url_scheme (urlparse database_url)) "mysql" then
    if construct_ok then (Some GamePool, [PoolInitialized "game_pool" 5])
    else (None, [PoolInitFailed])
  else (db_pool, []).

(** The configuration the store runs with after [initialize_db_pool]. *)
Definition deployment (database_url : string) (construct_ok : bool) : config :=
  Config (url_scheme (urlparse database_url))
         (fst (initialize_db_pool database_url construct_ok None)).

(** [init_db.get_db_config_from_env()], given [os.getenv("DATABASE_URL")]. *)
Definition get_db_config_from_env (db_url : option string) : attempt db_config :=
  match db_url with
  | None => Raised ValueError
  | Some db_url =>
      if String.eqb db_url "" then Raised ValueError
      else
        let parsed_url := urlparse db_url in
        if negb (String.eqb (url_scheme parsed_url) "mysql") then Raised ValueError
        else Returned (DbConfig (hostname parsed_url) (port parsed_url)
                         (username parsed_url) (password parsed_url)
                         (lstrip_slash (path parsed_url)))
  end.

(** The loop [for attempt in range(max_retries)], on the attempts left. *)
Fixpoint connect_with_retries (srv : server) (attempts : list nat)
  : loop_end * list init_event :=
  match attempts with
  | [] => (RangeDone, [])
  | attempt :: attempts' =>
      if accepts srv attempt
      then (Connected, [Connect attempt; InitLog INFO ConnectedToDatabase])
      else
        let failed := [Connect attempt;
                       InitLog WARNING (AttemptFailed (attempt + 1) max_retries)] in
        if Nat.eqb (attempt + 1) max_retries then (GaveUp, failed)
        else
          let '(e, evs) := connect_with_retries srv attempts' in
          (e, failed ++ Sleep retry_delay :: evs)
  end.

(** The statements run on the connection: the cursor, the CREATE TABLE and
    the commit.  The table exists as soon as the statement is executed. *)
Definition create_table (srv : server) (schema : option (list row))
  : attempt unit * option (list row) * list init_event :=
  if negb (step_ok (once_connected srv) AtCursor) then (Raised MySQLError, schema, [])
  else if negb (step_ok (once_connected srv) AtExecute)
  then (Raised MySQLError, schema, [InitLog INFO ExecutingCreateTable])
  else if negb (step_ok (once_connected srv) AtCommit)
  then (Raised MySQLError, create_if_absent schema,
        [InitLog INFO ExecutingCreateTable; CreateTable])
  else (Returned tt, create_if_absent schema,
        [InitLog INFO ExecutingCreateTable; CreateTable; InitCommit;
         InitLog INFO TableReady]).

(** [conn.is_connected()] *)
Definition alive (srv : server) : bool :=
  match once_connected srv with
  | LinkLost _ => false
  | _ => true
  end.

(** The [finally] clause: the cursor is closed if there is one, the
    connection if there is one and it is alive. *)
Definition clean_up (srv : server) (has_cursor has_conn : bool) : list init_event :=
  (if has_cursor then [InitCursorClosed] else [])
  ++ (if has_conn && alive srv
      then [InitConnClosed; InitLog INFO ConnectionClosed] else []).

(** [init_db.initialize_database()]: the schema it leaves and its effects. *)
Definition initialize_database (srv : server) (schema : option (list row))
  : option (list row) * list init_event :=
  match get_db_config_from_env (env_url srv) with
  | Raised e =>
      (schema, [InitLog INFO Attempting; InitLog ERROR (InitializationFailed e)])
  | Returned db_config =>
      match connect_with_retries srv (seq 0 max_retries) with
      | (GaveUp, evs) =>
          (schema, InitLog INFO Attempting :: evs
                   ++ [InitLog ERROR (InitializationFailed MySQLError)])
      | (RangeDone, evs) =>
          (schema, InitLog INFO Attempting :: evs ++ [InitLog ERROR NoConnection])
      | (Connected, evs) =>
          if alive srv then
            match create_table srv schema with
            | (Returned _, schema', created) =>
                (schema', InitLog INFO Attempting :: evs ++ created
                          ++ clean_up srv true true)
            | (Raised e, schema', created) =>
                (schema', InitLog INFO Attempting :: evs ++ created
                          ++ [InitLog ERROR (InitializationFailed e)]
                          ++ clean_up srv
                               (step_ok (once_connected srv) AtCursor) true)
            end
          else
            (schema, InitLog INFO Attempting :: evs ++ [InitLog ERROR NoConnection]
                     ++ clean_up srv false true)
      end
  end.

End Scripts.

(** Counters over the effects of the script. *)
Fixpoint connects (evs : list init_event) : nat :=
  match evs with
  | [] => 0
  | Connect _ :: evs' => S (connects evs')
  | _ :: evs' => connects evs'
  end.

Fixpoint slept (evs : list init_event) : nat :=
  match evs with
  | [] => 0
  | Sleep seconds :: evs' => seconds + slept evs'
  | _ :: evs' => slept evs'
  end.

Fixpoint tables_created (evs : list init_event) : nat :=
  match evs with
  | [] => 0
  | CreateTable :: evs' => S (tables_created evs')
  | _ :: evs' => tables_created evs'
  end.

(** A reading of URLs that is enough to run the scripts on examples: the
    scheme is what comes before the first colon, the path what comes
    after it. *)
Fixpoint split_colon (s : string) : string * string :=
  match s with
  | EmptyString => (EmptyString, EmptyString)
  | String c s' =>
      if Ascii.eqb c ":" then (EmptyString, s')
      else let '(a, b) := split_colon s' in (String c a, b)
  end.

Definition sample_urlparse (url : string) : parsed_url :=
  let '(a, b) := split_colon url in ParsedUrl a None None None None b.

End Startup.

(** ** More vocabulary: what an operation leaves alone *)

(** How many times a connection was closed. *)
Fixpoint closes (tr : list event) : nat :=
  match tr with
  | [] => 0
  | ConnClosed :: tr' => S (closes tr')
  | _ :: tr' => closes tr'
  end.

(** The rows are in descending order of their time stamp. *)
Fixpoint descending (t : list row) : Prop :=
  match t with
  | [] => True
  | r :: t' => Forall (fun r' => (last_modified r' <= last_modified r)%Z) t'
               /\ descending t'
  end.

(** A value with distinct keys that the encoder can write. *)
Definition storable (v : pyval) : Prop := wf v /\ is_Some (Json.encode v).

(** ** More worlds, and servers for the start-up script *)

Module Fixtures.
Import Sample Startup.
Local Open Scope string_scope.

(** The database answers; its clock shows 200. *)
Definition later : backend := Backend true Healthy 200.

(** The database refuses the statement. *)
Definition rejecting : backend := Backend true ExecuteRejected 100.

Definition sqlite_deployment : config := Config "sqlite" None.

(** The sample document saved for bob as well, when the clock of the
    database shows 200. *)
Definition two_players : world :=
  after (save_session mysql_deployment later 43 "bob" 0) alice_saved.

(** A row without text, and a row whose text is a list. *)
Definition null_row : row := Row "erin" None 3.
Definition null_world : world := World [] [null_row] None None [].
Definition list_row : row := Row "frank" (Some "[1]") 4.
Definition list_world : world := World [] [list_row] None None [].

(** A history whose second entry of the player has no content, saved for
    gina. *)
Definition first_entry : pydict := [("role", PStr "user"); ("content", PStr "a")].
Definition broken_entry : pydict := [("role", PStr "user")].
Definition broken_document : pydict :=
  [("internal_history", PList [PDict first_entry; PDict broken_entry])].
Definition broken_saved : world :=
  after (save_session mysql_deployment answering 42 "gina" 0)
        (World [PDict broken_document] [] None None []).

(** The sample document as [save_session] stamped it at time 42. *)
Definition stamped_document : pydict :=
  dict_set "last_modified" (PInt 42) document.

(** The entries of the history of the sample document. *)
Definition sample_history : list pydict :=
  [[("role", PStr "user"); ("content", PStr "a")];
   [("role", PStr "bot"); ("content", PStr "b")];
   [("role", PStr "user"); ("content", PStr "c")]].

(** The row of a player in a table, and its text. *)
Definition row_of (pid : string) (w : world) : row :=
  default (Row pid None 0) (lookup_row pid (table w)).
Definition text_of (pid : string) (w : world) : string :=
  default "" (session_data (row_of pid w)).

(** A server that accepts the third attempt, and one that accepts none. *)
Definition mysql_url : string := "mysql://game".
Definition slow_server : server :=
  Server (Some mysql_url) (fun attempt => Nat.leb 2 attempt) Healthy.
Definition dead_server : server := Server (Some mysql_url) (fun _ => false) Healthy.

End Fixtures.

(** ** The decoder inverts the encoder *)

Module JsonFacts.
Import Json.

Lemma scan_string_escape_char (c : ascii) (tl : list ascii) :
  scan_string (escape_char c ++ tl)
  = '(str, r) ← scan_string tl; Some (String c str, r).
Proof.
  destruct c as [[] [] [] [] [] [] [] []]; reflexivity.
Qed.

Lemma scan_string_escape (s : string) (rest : list ascii) :
  scan_string (escape s ++ quote :: rest) = Some (s, rest).
Proof.
  induction s as [|c s IH]; [reflexivity|].
  cbn [escape]. rewrite <- app_assoc, scan_string_escape_char, IH.
  reflexivity.
Qed.

Lemma follow_ok_digit (rest : list ascii) :
  follow_ok rest -> scan_digits rest = (Decimal.Nil, rest) /\ float_follows rest = false.
Proof.
  destruct rest as [|c r]; [done|].
  intros [-> | [-> | ->]]; done.
Qed.

Lemma scan_digits_uint (u : Decimal.uint) (rest : list ascii) :
  follow_ok rest -> scan_digits (uint_chars u ++ rest) = (u, rest).
Proof.
  intros Hrest. induction u as [|u IH|u IH|u IH|u IH|u IH|u IH|u IH|u IH|u IH|u IH];
    cbn [uint_chars app scan_digits digit]; rewrite ?IH; try reflexivity.
  by apply follow_ok_digit.
Qed.

(** The decimal digits of a positive number do not start with 0. *)
Lemma to_uint_head (p : positive) :
  match Pos.to_uint p with
  | Decimal.Nil | Decimal.D0 _ => False
  | _ => True
  end.
Proof.
  pose proof (DecimalPos.Unsigned.to_uint_nonnil p) as Hnil.
  pose proof (DecimalPos.Unsigned.to_uint_nonzero p) as Hzero.
  pose proof (DecimalN.Unsigned.to_of (Pos.to_uint p)) as Hnorm.
  change (N.of_uint (Pos.to_uint p)) with (Pos.of_uint (Pos.to_uint p)) in Hnorm.
  rewrite DecimalPos.Unsigned.of_to in Hnorm. cbn [N.to_uint] in Hnorm.
  destruct (Pos.to_uint p) as [|u| | | | | | | | |]; try done.
  rewrite unorm_D0 in Hnorm.
  assert (u = Decimal.Nil \/ u <> Decimal.Nil) as [->|Hu]
    by (destruct u; [left|right..]; done); [by apply Hzero|].
  pose proof (nb_digits_unorm u Hu) as Hle.
  rewrite <- Hnorm in Hle. cbn [Decimal.nb_digits] in Hle. lia.
Qed.

Lemma scan_nat_pos (p : positive) (rest : list ascii) :
  follow_ok rest ->
  scan_nat (uint_chars (Pos.to_uint p) ++ rest) = Some (Npos p, rest).
Proof.
  intros Hrest. unfold scan_nat. rewrite scan_digits_uint by done.
  destruct (follow_ok_digit rest Hrest) as [_ ->].
  pose proof (to_uint_head p) as Hhead.
  pose proof (DecimalPos.Unsigned.of_to p) as Hof.
  change (Pos.of_uint (Pos.to_uint p)) with (N.of_uint (Pos.to_uint p)) in Hof.
  destruct (Pos.to_uint p); try done; by rewrite Hof.
Qed.

Lemma scan_int_encode (z : Z) (rest : list ascii) :
  follow_ok rest -> scan_int (encode_int z ++ rest) = Some (PInt z, rest).
Proof.
  intros Hrest. destruct z as [|p|p]; cbn [encode_int app].
  - unfold scan_int, scan_nat. cbn [scan_digits digit].
    destruct (follow_ok_digit rest Hrest) as [-> ->]. reflexivity.
  - pose proof (scan_nat_pos p rest Hrest) as Hscan.
    pose proof (to_uint_head p) as Hhead.
    unfold scan_int. destruct (Pos.to_uint p); try done;
      cbn [uint_chars app] in *; by rewrite Hscan.
  - unfold scan_int. by rewrite scan_nat_pos.
Qed.

Ltac in_list := rewrite ?elem_of_cons; tauto.

Lemma encode_int_starts (z : Z) :
  exists c e, encode_int z = c :: e /\ c ∈ drop 6 starters.
Proof.
  destruct z as [|p|p]; cbn [encode_int].
  - eexists _, _. split; [reflexivity|]. unfold starters; cbn; in_list.
  - pose proof (to_uint_head p) as Hhead.
    destruct (Pos.to_uint p); try done; cbn [uint_chars];
      (eexists _, _; split; [reflexivity|]); unfold starters; cbn; in_list.
  - eexists _, _. split; [reflexivity|]. unfold starters; cbn; in_list.
Qed.

Lemma encode_starts (v : pyval) (e : list ascii) :
  encode v = Some e -> exists c e', e = c :: e' /\ c ∈ starters.
Proof.
  destruct v as [|[]|z|s|[|x l]|[|[k x] d]|r]; cbn [encode]; intros He;
    simplify_option_eq;
    try (eexists _, _; split; [reflexivity|]; unfold starters; in_list).
  destruct (encode_int_starts z) as (c & e' & -> & Hc).
  exists c, e'. split; [done|]. unfold starters in *. cbn in Hc. revert Hc. in_list.
Qed.

Lemma skip_ws_starter (c : ascii) (r : list ascii) :
  c ∈ starters -> skip_ws (c :: r) = c :: r.
Proof.
  unfold starters. rewrite !elem_of_cons, elem_of_nil.
  intros H; repeat (destruct H as [->|H]; [reflexivity|]); done.
Qed.

Lemma parse_value_int (n : nat) (z : Z) (rest : list ascii) :
  follow_ok rest ->
  parse_value (S n) (encode_int z ++ rest) = Some (PInt z, rest).
Proof.
  intros Hrest. rewrite <- (scan_int_encode z rest Hrest).
  destruct (encode_int_starts z) as (c & e' & -> & Hc).
  cbn [drop starters] in Hc. rewrite !elem_of_cons, elem_of_nil in Hc.
  repeat (destruct Hc as [->|Hc]; [reflexivity|]); done.
Qed.

Lemma encode_list_cons (x : pyval) (l : list pyval) :
  encode (PList (x :: l))
  = (e ← encode x; es ← encode_items l; Some ("[" :: e ++ es)).
Proof.
  cbn [encode]. destruct (encode x) as [e|]; [|reflexivity]. cbn.
  match goal with |- ?f l ≫= _ = _ => enough (f l = encode_items l) as -> end;
    [reflexivity|].
  induction l as [|y l IH]; [reflexivity|].
  cbn [encode_items]. by rewrite IH.
Qed.

Lemma encode_dict_cons (k : string) (x : pyval) (d : pydict) :
  encode (PDict ((k, x) :: d))
  = (e ← encode x; es ← encode_members d;
     Some ("{" :: encode_str k ++ chars ": " ++ e ++ es)).
Proof.
  cbn [encode]. destruct (encode x) as [e|]; [|reflexivity]. cbn.
  match goal with |- ?f d ≫= _ = _ => enough (f d = encode_members d) as -> end;
    [reflexivity|].
  induction d as [|[k' y] d IH]; [reflexivity|].
  cbn [encode_members]. by rewrite IH.
Qed.

Lemma wf_list (l : list pyval) : wf (PList l) <-> Forall wf l.
Proof.
  cbn [wf]. induction l as [|x l IH]; [by split|].
  rewrite Forall_cons, <- IH. reflexivity.
Qed.

Lemma wf_dict (d : pydict) :
  wf (PDict d) <-> NoDup (map fst d) /\ Forall (fun kv => wf (snd kv)) d.
Proof.
  cbn [wf]. apply and_iff_compat_l.
  induction d as [|kv d IH]; [by split|].
  rewrite Forall_cons, <- IH. reflexivity.
Qed.

Lemma encode_items_follow (l : list pyval) (es rest : list ascii) :
  encode_items l = Some es -> follow_ok (es ++ rest) /\ 1 <= length es.
Proof.
  destruct l as [|y l]; cbn [encode_items]; intros He; simplify_option_eq.
  - split; [right; by left | cbn; lia].
  - split; [by left | cbn; lia].
Qed.

Lemma encode_members_follow (d : pydict) (es rest : list ascii) :
  encode_members d = Some es -> follow_ok (es ++ rest) /\ 1 <= length es.
Proof.
  destruct d as [|[k y] d]; cbn [encode_members]; intros He; simplify_option_eq.
  - split; [right; by right | cbn; lia].
  - split; [by left | cbn; lia].
Qed.

(** Building the dict of members with distinct keys changes nothing. *)
Lemma dict_set_fresh (k : string) (v : pyval) (d : pydict) :
  k ∉ map fst d -> dict_set k v d = d ++ [(k, v)].
Proof.
  induction d as [|[k' v'] d IH]; [done|].
  cbn [map fst dict_set app]. rewrite not_elem_of_cons. intros [Hne Hnotin].
  apply String.eqb_neq in Hne. rewrite Hne, IH; done.
Qed.

Lemma dict_of_pairs_nodup (ps : pydict) :
  NoDup (map fst ps) -> dict_of_pairs ps = ps.
Proof.
  unfold dict_of_pairs.
  enough (forall d, NoDup (map fst (d ++ ps)) ->
            fold_left (fun d kv => dict_set (fst kv) (snd kv) d) ps d = d ++ ps)
    as Hgen by (intros Hnd; apply (Hgen []); done).
  induction ps as [|[k v] ps IH]; intros d Hnd; cbn [fold_left].
  - by rewrite app_nil_r.
  - rewrite dict_set_fresh.
    + rewrite IH; rewrite <- app_assoc; done.
    + rewrite map_app in Hnd. apply NoDup_app in Hnd as (_ & Hdisj & _).
      intros Hin. apply (Hdisj _ Hin). cbn. left.
Qed.

Lemma skip_ws_encode (v : pyval) (e rest : list ascii) :
  encode v = Some e -> skip_ws (e ++ rest) = e ++ rest.
Proof.
  intros (c & e' & -> & Hc)%encode_starts. by apply skip_ws_starter.
Qed.

Lemma encode_length (v : pyval) (e : list ascii) :
  encode v = Some e -> 1 <= length e.
Proof. intros (c & e' & -> & _)%encode_starts. cbn. lia. Qed.

Lemma parse_items_encode (l : list pyval) :
  Forall reads_back l ->
  forall es, encode_items l = Some es ->
  forall n rest, length es <= n -> follow_ok rest ->
  parse_items n (es ++ rest) = Some (l, rest).
Proof.
  induction 1 as [|x l Hx _ IH]; intros es Hes n rest Hn Hrest;
    cbn [encode_items] in Hes; simplify_option_eq.
  - destruct n as [|n]; [cbn in Hn; lia|]. reflexivity.
  - rename H into e, H0 into es, Heqo into Hex, Heqo0 into Hes.
    destruct n as [|n]; [cbn in Hn; lia|].
    cbn [chars list_ascii_of_string app length] in *.
    rewrite length_app in Hn.
    pose proof (encode_length _ _ Hex).
    destruct (encode_items_follow l es rest Hes) as [Hfollow ?].
    cbn [parse_items skip_ws is_ws]. rewrite <- app_assoc.
    rewrite (skip_ws_encode x) by done.
    rewrite (Hx e Hex n (es ++ rest)) by (done || lia). cbn.
    rewrite (IH es eq_refl n rest) by (done || lia). reflexivity.
Qed.

Lemma scan_key (k : string) (tl : list ascii) :
  scan_string (escape k ++ ["034"] ++ tl) = Some (k, tl).
Proof. apply scan_string_escape. Qed.

Lemma parse_members_encode (d : pydict) :
  Forall (fun kv => reads_back (snd kv)) d ->
  forall es, encode_members d = Some es ->
  forall n rest, length es <= n -> follow_ok rest ->
  parse_members n (es ++ rest) = Some (d, rest).
Proof.
  induction 1 as [|[k x] d Hx _ IH]; intros es Hes n rest Hn Hrest;
    cbn [encode_members] in Hes.
  - injection Hes as <-. destruct n as [|n]; [cbn in Hn; lia|]. reflexivity.
  - destruct (encode x) as [e|] eqn:Hex; [|done].
    destruct (encode_members d) as [es'|] eqn:Hes'; [|done].
    cbn in Hes. injection Hes as <-. cbn [snd] in Hx.
    destruct n as [|n]; [cbn in Hn; lia|].
    pose proof (encode_length _ _ Hex).
    destruct (encode_members_follow d es' rest Hes') as [Hfollow ?].
    cbn [length] in Hn. rewrite !length_app in Hn. cbn [length] in Hn.
    rewrite ?length_app in Hn.
    unfold encode_str, quote. cbn [parse_members skip_ws is_ws app].
    rewrite <- !app_assoc. cbn [app].
    change ("034" :: ":" :: ?t) with (["034"] ++ ":" :: t).
    rewrite scan_key. cbn [mbind option_bind skip_ws is_ws].
    rewrite <- ?app_assoc.
    rewrite (skip_ws_encode x) by done.
    rewrite (Hx e Hex n (es' ++ rest)) by (done || lia). cbn.
    rewrite (IH es' eq_refl n rest) by (done || lia). reflexivity.
Qed.

(** Every serializable value with distinct keys is read back. *)
Lemma parse_encode (v : pyval) : wf v -> reads_back v.
Proof.
  induction v as [|b|z|s|l IH|d IH|r] using pyval_nested_ind;
    intros Hwf e He n rest Hn Hrest.
  - injection He as <-. destruct n as [|n]; [cbn in Hn; lia|]. reflexivity.
  - destruct b; injection He as <-;
      (destruct n as [|n]; [cbn in Hn; lia|]); reflexivity.
  - injection He as <-. destruct n as [|n]; [|by apply parse_value_int].
    destruct (encode_int_starts z) as (c & e' & Hz & _).
    rewrite Hz in Hn. cbn in Hn. lia.
  - injection He as <-. destruct n as [|n]; [cbn in Hn; lia|].
    unfold encode_str, quote. cbn [parse_value app]. rewrite <- app_assoc.
    rewrite scan_key. reflexivity.
  - apply wf_list in Hwf.
    destruct l as [|x l].
    { injection He as <-. destruct n as [|n]; [cbn in Hn; lia|]. reflexivity. }
    rewrite encode_list_cons in He.
    destruct (encode x) as [ex|] eqn:Hex; [|done].
    destruct (encode_items l) as [es|] eqn:Hes; [|done].
    cbn in He. injection He as <-.
    apply Forall_cons in IH as [IHx IHl]. apply Forall_cons in Hwf as [Hwx Hwl].
    destruct n as [|n]; [cbn in Hn; lia|].
    cbn [length] in Hn. rewrite length_app in Hn.
    destruct (encode_items_follow l es rest Hes) as [Hfollow ?].
    destruct (encode_starts x ex Hex) as (c & ex' & -> & Hc).
    change (("[" :: ?a) ++ rest) with ("[" :: a ++ rest).
    assert (parse_value (S n) ("[" :: ((c :: ex') ++ es) ++ rest)
            = '(v, r1) ← parse_value n ((c :: ex') ++ es ++ rest);
              '(vs, r2) ← parse_items n r1; Some (PList (v :: vs), r2)) as ->.
    { rewrite <- app_assoc. revert Hc. unfold starters.
      rewrite !elem_of_cons, elem_of_nil.
      intros Hc; repeat (destruct Hc as [->|Hc]; [reflexivity|]); done. }
    rewrite (IHx Hwx _ Hex n (es ++ rest)) by (done || lia). cbn.
    rewrite (parse_items_encode l) with (es := es); try done; try lia.
    eapply Forall_impl; [apply Forall_and; split; [exact IHl | exact Hwl]|].
    intros y [Hy Hwy]. by apply Hy.
  - apply wf_dict in Hwf as [Hnodup Hwf].
    destruct d as [|[k x] d].
    { injection He as <-. destruct n as [|n]; [cbn in Hn; lia|]. reflexivity. }
    rewrite encode_dict_cons in He.
    destruct (encode x) as [ex|] eqn:Hex; [|done].
    destruct (encode_members d) as [es|] eqn:Hes; [|done].
    cbn in He. injection He as <-.
    apply Forall_cons in IH as [IHx IHd]. apply Forall_cons in Hwf as [Hwx Hwd].
    cbn [snd] in IHx, Hwx.
    destruct n as [|n]; [cbn in Hn; lia|].
    pose proof (encode_length _ _ Hex).
    cbn [length] in Hn. rewrite !length_app in Hn. cbn [length] in Hn.
    rewrite ?length_app in Hn.
    destruct (encode_members_follow d es rest Hes) as [Hfollow ?].
    unfold encode_str, quote. cbn [parse_value skip_ws is_ws app].
    rewrite <- !app_assoc. cbn [app].
    change ("034" :: ":" :: ?t) with (["034"] ++ ":" :: t).
    rewrite scan_key. cbn [mbind option_bind skip_ws is_ws].
    rewrite <- ?app_assoc.
    rewrite (skip_ws_encode x) by done.
    rewrite (IHx Hwx _ Hex n (es ++ rest)) by (done || lia).
    cbn [mbind option_bind].
    rewrite (parse_members_encode d) with (es := es); try done; try lia.
    + cbn [mbind option_bind]. by rewrite dict_of_pairs_nodup.
    + eapply Forall_impl; [apply Forall_and; split; [exact IHd | exact Hwd]|].
      intros y [Hy Hwy]. by apply Hy.
  - done.
Qed.

(** [json.loads(json.dumps(v)) == v]. *)
Lemma loads_dumps (v : pyval) (s : string) :
  wf v -> dumps v = Some s -> loads s = Some v.
Proof.
  unfold dumps, loads, decode, chars. intros Hwf Hs.
  destruct (encode v) as [e|] eqn:He; [|done]. injection Hs as <-.
  rewrite list_ascii_of_string_of_list_ascii.
  rewrite <- (app_nil_r e). rewrite (skip_ws_encode v) by done.
  rewrite (parse_encode v Hwf e He); [reflexivity| |done].
  rewrite length_app. lia.
Qed.

End JsonFacts.

(** ** Facts about the table and about documents *)

Module StoreFacts.
Import Json JsonFacts.

Lemma matching_upsert (pid blob : string) (now : Z) (t : list row) :
  exists r, head (matching pid (upsert pid blob now t)) = Some r
            /\ session_data r = Some blob.
Proof.
  unfold matching. induction t as [|r t IH]; cbn [upsert].
  - rewrite filter_cons. cbn [player_id]. rewrite String.eqb_refl.
    rewrite decide_True by done. eauto.
  - destruct (String.eqb (player_id r) pid) eqn:Hpid.
    + destruct (decide (session_data r = Some blob)) as [Hblob|Hblob];
        rewrite filter_cons; cbn [player_id].
      * rewrite decide_True by done. eauto.
      * rewrite String.eqb_refl, decide_True by done. eauto.
    + rewrite filter_cons, decide_False by (rewrite Hpid; done). exact IH.
Qed.

Lemma matching_absent (pid : string) (t : list row) :
  pid ∉ map player_id t -> matching pid t = [].
Proof.
  unfold matching. induction t as [|r t IH]; [done|].
  cbn [map]. rewrite not_elem_of_cons. intros [Hne Hnotin].
  rewrite filter_cons, decide_False; [by apply IH|].
  rewrite String.eqb_eq. congruence.
Qed.

(** A player without a row: the SELECT finds nothing. *)
Lemma lookup_row_absent (pid : string) (t : list row) :
  pid ∉ map player_id t -> lookup_row pid t = None.
Proof. intros Hnotin. unfold lookup_row. by rewrite matching_absent. Qed.

Lemma encode_members_some (d : pydict) :
  is_Some (encode_members d) <-> Forall (fun kv => is_Some (encode (snd kv))) d.
Proof.
  induction d as [|[k x] d IH]; cbn [encode_members].
  - split; [constructor | eauto].
  - rewrite Forall_cons, <- IH. cbn [snd].
    destruct (encode x) as [e|]; cbn.
    + destruct (encode_members d) as [es|]; cbn.
      * split; [intros _; split; eauto | eauto].
      * split; [by intros [? ?] | by intros [_ [? ?]]].
    + split; [by intros [? ?] | by intros [[? ?] _]].
Qed.

Lemma encode_dict_some (d : pydict) :
  is_Some (encode (PDict d)) <-> Forall (fun kv => is_Some (encode (snd kv))) d.
Proof.
  destruct d as [|[k x] d]; [split; [constructor | cbn; eauto]|].
  rewrite encode_dict_cons, Forall_cons, <- encode_members_some. cbn [snd].
  destruct (encode x) as [e|]; cbn.
  - destruct (encode_members d) as [es|]; cbn.
    + split; [intros _; split; eauto | eauto].
    + split; [by intros [? ?] | by intros [_ [? ?]]].
  - split; [by intros [? ?] | by intros [[? ?] _]].
Qed.

Lemma dict_set_Forall (P : string * pyval -> Prop) k v (d : pydict) :
  P (k, v) -> Forall P d -> Forall P (dict_set k v d).
Proof.
  intros Hkv. induction 1 as [|[k' v'] d Hx Hd IH]; cbn [dict_set].
  - by repeat constructor.
  - destruct (String.eqb k k'); constructor; done.
Qed.

Lemma dict_set_keys k v (d : pydict) :
  map fst (dict_set k v d)
  = if decide (k ∈ map fst d) then map fst d else map fst d ++ [k].
Proof.
  induction d as [|[k' v'] d IH]; [done|].
  cbn [dict_set map fst]. destruct (String.eqb k k') eqn:Hk.
  - apply String.eqb_eq in Hk as ->. cbn.
    rewrite decide_True by apply list_elem_of_here. done.
  - apply String.eqb_neq in Hk. cbn [map fst]. rewrite IH.
    destruct (decide (k ∈ map fst d)) as [Hin|Hin].
    + rewrite decide_True by (by apply list_elem_of_further). done.
    + rewrite decide_False; [done|]. rewrite not_elem_of_cons. done.
Qed.

Lemma dict_set_wf k v (d : pydict) :
  wf v -> wf (PDict d) -> wf (PDict (dict_set k v d)).
Proof.
  rewrite !wf_dict. intros Hv [Hnodup Hwf]. split.
  - rewrite dict_set_keys. case_decide as Hin; [done|].
    apply NoDup_app. split_and!; [done| |apply NoDup_singleton].
    intros x Hx ->%list_elem_of_singleton. done.
  - by apply dict_set_Forall.
Qed.

Lemma dict_get_set_eq k v (d : pydict) : dict_get k (dict_set k v d) = Some v.
Proof.
  induction d as [|[k' v'] d IH]; cbn [dict_set dict_get].
  - by rewrite String.eqb_refl.
  - destruct (String.eqb k k') eqn:Hk; cbn [dict_get]; rewrite ?Hk; [|exact IH].
    by rewrite String.eqb_refl.
Qed.

Lemma dict_get_set_ne k k' v (d : pydict) :
  k' <> k -> dict_get k' (dict_set k v d) = dict_get k' d.
Proof.
  intros Hne. induction d as [|[k0 v0] d IH]; cbn [dict_set dict_get].
  - apply String.eqb_neq in Hne. by rewrite Hne.
  - destruct (String.eqb k k0) eqn:Hk; cbn [dict_get]; [|by rewrite IH].
    apply String.eqb_eq in Hk as <-.
    apply String.eqb_neq in Hne. by rewrite Hne.
Qed.

Lemma dict_set_serializable k z (d : pydict) :
  is_Some (dumps (PDict d)) -> is_Some (dumps (PDict (dict_set k (PInt z) d))).
Proof.
  unfold dumps. rewrite !fmap_is_Some, !encode_dict_some.
  apply dict_set_Forall. cbn. eauto.
Qed.

Lemma dumps_nonempty (v : pyval) (s : string) : dumps v = Some s -> s <> ""%string.
Proof.
  unfold dumps. destruct (encode v) as [e|] eqn:He; [|done].
  intros [= <-]. apply encode_starts in He as (c & e' & -> & _). done.
Qed.


End StoreFacts.

(** ** The operations of the store *)

Module Claims.
Import Json JsonFacts StoreFacts Sample.

Ltac unfold_monad :=
  unfold call, connect, try_except, try_finally, release, is_connected, truth,
    get_method, setitem, json_dumps, json_loads, deref, alloc, conn_cursor,
    execute, fetchone, fetchall, commit, gather, log, emit, cursor_close,
    conn_close, visible, raise, mbind, M_bind, mret, M_ret in *.

Ltac case_scheme cfg Hacq :=
  let Hsqlite := fresh "Hsqlite" in
  let Hmysql := fresh "Hmysql" in
  destruct (String.eqb (scheme cfg) "sqlite") eqn:Hsqlite;
  [ assert (String.eqb (scheme cfg) "mysql" = false) as Hmysql
      by (apply String.eqb_eq in Hsqlite; rewrite Hsqlite; reflexivity);
    rewrite ?Hmysql in *
  | destruct (String.eqb (scheme cfg) "mysql") eqn:Hmysql; [|discriminate Hacq] ].

Ltac finish_run :=
  eexists; split;
  [ rewrite <- ?app_assoc; first [reflexivity | rewrite app_nil_r; reflexivity]
  | cbn; done ].

(** *** Running an operation *)

Lemma bind_val {A B : Type} (m : M A) (k : A -> M B) (w w' : world) (a : A) :
  m w = (Val a, w') -> (m ≫= k) w = k a w'.
Proof. unfold mbind, M_bind. by intros ->. Qed.

Lemma events_app {A : Type} (m : M A) (w : world) (evs : list event) :
  trace (snd (m w)) = trace w ++ evs -> events m w = evs.
Proof.
  unfold events, after. intros ->. by rewrite drop_app_length.
Qed.

Lemma events_grown {A : Type} (m : M A) (w : world) r hp evs :
  m w = (r, grown w hp evs) -> events m w = evs.
Proof. intros Hrun. apply events_app. by rewrite Hrun. Qed.

Lemma writes_app (tr1 tr2 : list event) : writes (tr1 ++ tr2) = writes tr1 + writes tr2.
Proof.
  induction tr1 as [|e tr1 IH]; [done|].
  destruct e as [| [] | | | |]; cbn; rewrite ?IH; done.
Qed.

Lemma dispatches_app (tr1 tr2 : list event) :
  dispatches (tr1 ++ tr2) = dispatches tr1 + dispatches tr2.
Proof.
  induction tr1 as [|e tr1 IH]; [done|].
  destruct e; cbn; rewrite ?IH; done.
Qed.

(** *** The connection provider *)

Lemma get_db_connection_run (cfg : config) (b : backend) (w : world) :
  get_db_connection cfg b w =
  match acquire_failure cfg b with
  | Some err =>
      (Val None, World (heap w) (table w) (pending w) (cursor_var w)
                   (trace w ++ [Log ERROR (logged_for cfg err)]))
  | None => (Val (Some (conn_of cfg)), w)
  end.
Proof.
  unfold get_db_connection, acquire_failure, conn_of, logged_for. unfold_monad.
  destruct (String.eqb (scheme cfg) "sqlite"), (String.eqb (scheme cfg) "mysql"),
    (db_pool cfg), (connect_ok b); reflexivity.
Qed.

Lemma acquires_failure (cfg : config) (b : backend) :
  acquires cfg b = bool_decide (acquire_failure cfg b = None).
Proof.
  unfold acquires, acquire_failure.
  destruct (String.eqb (scheme cfg) "sqlite"), (String.eqb (scheme cfg) "mysql"),
    (db_pool cfg), (connect_ok b); reflexivity.
Qed.

(** *** What each operation computes *)

Lemma save_session_run (cfg : config) (b : backend) (now : Z)
    (pid : string) (doc : loc) (w : world) :
  exists evs,
    save_session cfg b now pid doc w
    = (save_outcome cfg b now doc w,
       World (stamped_heap cfg b now doc w) (saved_table cfg b now pid doc w)
         (pending w) (cursor_var w) (trace w ++ evs))
    /\ dispatch_follows_commit false evs = true
    /\ dispatches evs = (if save_goes_through cfg b now doc w then 1 else 0).
Proof.
  unfold save_outcome, stamped_heap, saved_table, save_goes_through, stamped_text.
  rewrite acquires_failure.
  unfold save_session, call. unfold mbind at 1. unfold M_bind at 1.
  rewrite get_db_connection_run. cbn [heap table pending cursor_var trace].
  destruct (acquire_failure cfg b) as [err|] eqn:Hacq.
  { cbn. finish_run. }
  unfold conn_of. unfold acquire_failure in Hacq.
  unfold_monad. cbn [heap table pending cursor_var trace].
  destruct (heap w !! doc) as [v|] eqn:Hdoc.
  2: { case_scheme cfg Hacq; destruct (failure b) as [|[]| |]; cbn; finish_run. }
  assert (Hlen : doc < length (heap w)) by (by eapply lookup_lt_Some).
  destruct v as [| | | | |d|];
    try (case_scheme cfg Hacq; destruct (failure b) as [|[]| |]; cbn; finish_run).
  cbn [heap table pending cursor_var trace].
  rewrite list_lookup_insert_eq by done. cbn [from_option id].
  destruct (dumps (PDict (dict_set "last_modified" (PInt now) d))) as [blob|];
    case_scheme cfg Hacq; destruct (failure b) as [|[]| |]; cbn; finish_run.
Qed.

(** Whenever the database answers and the document cannot be written as
    text, the call ends in the exception of the [finally] clause. *)
Lemma save_session_unbound_cursor (cfg : config) (b : backend) (now : Z)
    (pid : string) (doc : loc) (w : world) :
  operational cfg b ->
  stamped_text now doc w = None ->
  outcome (save_session cfg b now pid doc) w = Exc (UnboundLocalError "cursor").
Proof.
  intros (Hs & Hp & Hc & Hf) Htext.
  destruct (save_session_run cfg b now pid doc w) as (evs & Hrun & _).
  unfold outcome. rewrite Hrun. cbn [fst].
  unfold save_outcome, acquires, is_connected. rewrite Hs, Hp, Hc, Hf, Htext.
  reflexivity.
Qed.

(** On the sqlite scheme every statement of the store is refused: a save
    changes no row. *)
Lemma sqlite_save_is_dropped (cfg : config) (b : backend) (now : Z)
    (pid : string) (doc : loc) (w : world) :
  scheme cfg = "sqlite"%string ->
  table (after (save_session cfg b now pid doc) w) = table w.
Proof.
  intros Hs.
  destruct (save_session_run cfg b now pid doc w) as (evs & Hrun & _).
  unfold after. rewrite Hrun. cbn [snd table].
  unfold saved_table, save_goes_through. rewrite Hs. cbn.
  by rewrite !andb_false_r.
Qed.

Lemma get_session_absent (cfg : config) (b : backend) (pid : string) (w : world) :
  lookup_row pid (table w) = None ->
  exists evs,
    get_session cfg b pid w = (Val None, grown w (heap w) evs)
    /\ writes evs = 0 /\ dispatches evs = 0
    /\ Forall (fun m => m <> GetSessionFailed pid JSONDecodeError) (errors evs).
Proof.
  unfold lookup_row, grown. intros Hrow.
  unfold get_session, call. unfold mbind at 1. unfold M_bind at 1.
  rewrite get_db_connection_run. cbn [heap table pending cursor_var trace].
  destruct (acquire_failure cfg b) as [err|] eqn:Hacq.
  { eexists. cbn. split; [reflexivity|]. split_and!; try done.
    unfold logged_for. destruct err; repeat constructor; done. }
  unfold conn_of. unfold_monad. cbn [heap table pending cursor_var trace].
  destruct (String.eqb (scheme cfg) "sqlite"), (failure b) as [|[]| |];
    cbn -[matching]; rewrite ?Hrow; cbn;
    (eexists; split;
     [ rewrite <- ?app_assoc; reflexivity
     | split_and!; try done; repeat constructor; done ]).
Qed.

Lemma get_session_found (cfg : config) (b : backend) (pid : string)
    (w : world) (r : row) (blob : string) (v : pyval) :
  operational cfg b ->
  lookup_row pid (table w) = Some r ->
  session_data r = Some blob ->
  blob <> ""%string ->
  Json.loads blob = Some v ->
  v <> PNone ->
  get_session cfg b pid w
  = (Val (Some (length (heap w))),
     grown w (heap w ++ [v]) [Executed (SelectSession pid); CursorClosed; ConnClosed]).
Proof.
  intros (Hs & Hp & Hc & Hf) Hrow Hdata Hne Hloads Hv.
  destruct blob as [|c blob']; [done|]. clear Hne.
  unfold get_session, get_db_connection, lookup_row, grown in *. unfold_monad.
  rewrite Hs, Hp, Hc, Hf. cbn -[matching Json.loads].
  rewrite Hrow. cbn -[matching Json.loads].
  rewrite Hdata. cbn -[matching Json.loads].
  rewrite Hloads. destruct v; try done; cbn; rewrite <- !app_assoc; reflexivity.
Qed.

Lemma get_session_empty_object (cfg : config) (b : backend) (pid : string)
    (w : world) (r : row) :
  lookup_row pid (table w) = Some r ->
  session_data r = Some "{}"%string ->
  exists evs res hp,
    get_session cfg b pid w = (Val res, grown w hp evs)
    /\ writes evs = 0 /\ dispatches evs = 0
    /\ (res = None /\ hp = heap w
        \/ res = Some (length (heap w)) /\ hp = heap w ++ [PDict []]).
Proof.
  unfold lookup_row, grown. intros Hrow Hdata.
  unfold get_session, call. unfold mbind at 1. unfold M_bind at 1.
  rewrite get_db_connection_run. cbn [heap table pending cursor_var trace].
  destruct (acquire_failure cfg b) as [err|] eqn:Hacq.
  { eexists _, _, _. cbn. split; [reflexivity|]. split_and!; try done. by left. }
  unfold conn_of. unfold_monad. cbn [heap table pending cursor_var trace].
  destruct (String.eqb (scheme cfg) "sqlite"), (failure b) as [|[]| |];
    cbn -[matching]; rewrite ?Hrow; cbn; rewrite ?Hdata; cbn;
    (eexists _, _, _; split;
     [ rewrite <- ?app_assoc; reflexivity
     | split_and!; try done; first [by left | by right] ]).
Qed.

Lemma summarize_run (enc : string -> string) (rows : list row) :
  forall (results : list summary) (w : world),
  exists hp,
    match mapM (summary_of enc) rows with
    | Some l => summarize enc rows results w = (Val (results ++ l), grown w hp [])
    | None => exists e, summarize enc rows results w = (Exc e, grown w hp [])
    end.
Proof.
  induction rows as [|r rows IH]; intros results w.
  - exists (heap w). cbn. unfold grown. rewrite !app_nil_r. by destruct w.
  - assert (Hsum : summary_of enc r
                   = match loads (str_of_column (session_data r)) with
                     | Some (PDict d) =>
                         Some (Summary (enc (player_id r)) (display_name (player_id r))
                                 (default (PInt 0) (dict_get "last_modified" d)))
                     | _ => None
                     end) by reflexivity.
    change (mapM (summary_of enc) (r :: rows))
      with (y ← summary_of enc r; k ← mapM (summary_of enc) rows; mret (y :: k)).
    rewrite Hsum. clear Hsum. cbn [summarize].
    unfold json_loads, get_method, alloc, deref, raise, mbind, M_bind, mret, M_ret.
    destruct (loads (str_of_column (session_data r))) as [v|].
    2: { exists (heap w). cbn -[mapM summary_of summarize].
         eexists. unfold grown. rewrite app_nil_r. by destruct w. }
    destruct v as [| | | | |d|];
      try (cbn -[mapM summary_of summarize];
           rewrite ?lookup_app_r, ?Nat.sub_diag by done;
           cbn -[mapM summary_of summarize];
           eexists; eexists; unfold grown; rewrite app_nil_r; reflexivity).
    + exists (heap w). cbn -[mapM summary_of summarize].
      eexists. unfold grown. rewrite app_nil_r. by destruct w.
    + cbn -[mapM summary_of summarize].
      rewrite lookup_app_r, Nat.sub_diag by done.
      cbn -[mapM summary_of summarize].
      set (w' := World (heap w ++ [PDict d]) (table w) (pending w) (cursor_var w) (trace w)).
      destruct (IH (results ++ [Summary (enc (player_id r)) (display_name (player_id r))
                                  (default (PInt 0) (dict_get "last_modified" d))]) w')
        as (hp & Hrest).
      exists hp. destruct (mapM (summary_of enc) rows) as [l|];
        cbn -[summarize].
      * rewrite Hrest. by rewrite <- app_assoc.
      * exact Hrest.
Qed.

Lemma user_contents_entries (history : list pydict) (w : world) :
  Forall (fun e => is_Some (dict_get "content" e)) history ->
  user_contents (map PDict history) w = (Val (user_inputs history), w).
Proof.
  induction 1 as [|e history [content He] _ IH]; [done|].
  change (user_inputs (e :: history))
    with (match entry_input e with
          | Some y => y :: user_inputs history
          | None => user_inputs history
          end).
  cbn [map user_contents]. unfold entry_input.
  unfold mbind, M_bind, mret, M_ret.
  destruct (equals_str (dict_get "role" e) "user"); [|exact IH].
  rewrite He, IH. reflexivity.
Qed.

(** What [get_last_n_inputs] returns for a stored session with a history. *)
Lemma get_last_n_inputs_run (cfg : config) (b : backend) (pid : string) (n : Z)
    (w : world) (r : row) (blob : string) (d : pydict) (history : list pydict) :
  operational cfg b ->
  lookup_row pid (table w) = Some r ->
  session_data r = Some blob ->
  blob <> ""%string ->
  Json.loads blob = Some (PDict d) ->
  dict_get "internal_history" d = Some (PList (map PDict history)) ->
  Forall (fun e => is_Some (dict_get "content" e)) history ->
  outcome (get_last_n_inputs cfg b pid n) w
  = Val (slice_from (- n) (user_inputs history)).
Proof.
  intros Hop Hrow Hdata Hne Hloads Hhist Hwf.
  pose proof (get_session_found cfg b pid w r blob (PDict d)
                Hop Hrow Hdata Hne Hloads ltac:(done)) as Hget.
  unfold outcome, get_last_n_inputs. rewrite (bind_val _ _ _ _ _ Hget).
  unfold grown, truth, get_method, iterate, deref, mbind, M_bind, mret, M_ret.
  cbn [heap]. rewrite !lookup_app_r by done. rewrite !Nat.sub_diag.
  cbn [lookup list_lookup from_option id].
  assert (Htruthy : truthy (PDict d) = true).
  { destruct d; [done|reflexivity]. }
  rewrite Htruthy. cbn [negb heap].
  rewrite !lookup_app_r by done. rewrite !Nat.sub_diag.
  cbn [lookup list_lookup from_option id]. rewrite Hhist. cbn [from_option id].
  rewrite user_contents_entries by done. reflexivity.
Qed.

(** With at least one input asked for, the slice keeps the last [n]. *)
Lemma slice_from_last (n : Z) (xs : list pyval) :
  (0 < n)%Z ->
  slice_from (- n) xs = drop (length xs - Z.to_nat n) xs
  /\ length (slice_from (- n) xs) <= Z.to_nat n.
Proof.
  intros Hn. unfold slice_from.
  assert (Hneg : (- n <? 0)%Z = true) by (apply Z.ltb_lt; lia). rewrite Hneg.
  assert (Hidx : Z.to_nat (Z.max (Z.of_nat (length xs) + - n) 0)
                 = length xs - Z.to_nat n) by lia.
  rewrite Hidx. split; [done|]. rewrite length_drop. lia.
Qed.

(** *** Save, then read *)



(** *** A row that does not decode *)




(** *** The listing of recent sessions *)




(** *** The last inputs of a player *)

(** The row of alice after the save: the sample document with its stamp. *)
Example alice_saved_row :
  session_data <$> lookup_row "alice" (table alice_saved)
  = Some (Json.dumps (PDict (document ++ [("last_modified"%string, PInt 42)]))).
Proof. vm_compute. reflexivity. Qed.

(** C4 fails for [n = 0]: the slice [[-0:]] is the whole list, so asking
    for the last 0 inputs of alice, who entered two, returns both. *)
Theorem last_zero_inputs_are_all_inputs :
  outcome (get_last_n_inputs mysql_deployment answering "alice" 0) alice_saved
  = Val [PStr "a"; PStr "c"].
Proof. vm_compute. reflexivity. Qed.

(** The example of the specification: the last input of alice. *)
Example last_one_input :
  outcome (get_last_n_inputs mysql_deployment answering "alice" 1) alice_saved
  = Val [PStr "c"].
Proof. vm_compute. reflexivity. Qed.

(** *** Commit, then dispatch *)

(** C5.  [save_session] dispatches to the sinks at most once, never before
    the commit, and exactly when every step of the save went through; a
    failure of the acquisition, of the serialization, of the statement or
    of the commit leaves the sinks alone. *)
Theorem save_dispatches_after_commit (cfg : config) (b : backend) (now : Z)
    (pid : string) (doc : loc) (w : world) :
  let evs := events (save_session cfg b now pid doc) w in
  trace (after (save_session cfg b now pid doc) w) = trace w ++ evs
  /\ dispatches evs <= 1
  /\ dispatch_follows_commit false evs = true
  /\ dispatches evs = (if save_goes_through cfg b now doc w then 1 else 0).
Proof.
  destruct (save_session_run cfg b now pid doc w) as (evs & Hrun & Horder & Hcount).
  assert (Htrace : trace (snd (save_session cfg b now pid doc w)) = trace w ++ evs)
    by (by rewrite Hrun).
  cbn zeta. rewrite (events_app _ _ _ Htrace). unfold after.
  split_and!; try done. rewrite Hcount. destruct (save_goes_through _ _ _ _ _); lia.
Qed.

(** *** A save that fails *)

(** C6 fails when the document cannot be serialized: the [except] clause
    logs the [TypeError], and the [finally] clause then closes a [cursor]
    that was never assigned, which raises [UnboundLocalError] to the
    caller. *)
Theorem save_unserializable_raises :
  Json.dumps (PDict [("inventory"%string, PObject "set()"); ("last_modified"%string, PInt 42)]) = None
  /\ outcome (save_session mysql_deployment answering 42 "alice" 0) unserializable
     = Exc (UnboundLocalError "cursor").
Proof. vm_compute. done. Qed.

(** *** Failures of acquisition *)

(** C7 as stated fails: a pool that was never built, a refused borrow and
    an unknown scheme all make [get_db_connection] return [None]. *)
Lemma acquire_failures_look_alike :
  acquire_failure (Config "mysql" None) answering = Some PoolUnavailable
  /\ acquire_failure mysql_deployment refusing = Some ConnectionError
  /\ acquire_failure (Config "postgres" None) answering = Some UnsupportedBackend
  /\ outcome (get_db_connection (Config "mysql" None) answering) empty_world = Val None
  /\ outcome (get_db_connection mysql_deployment refusing) empty_world = Val None
  /\ outcome (get_db_connection (Config "postgres" None) answering) empty_world = Val None.
Proof. vm_compute. done. Qed.

(** C7, as amended.  In each of the three failures of acquisition
    [get_db_connection] returns [None]; what tells them apart is the one
    error it logs, a different message for each. *)
Theorem acquire_failures_logged (cfg : config) (b : backend) (w : world)
    (err : acquire_error) :
  acquire_failure cfg b = Some err ->
  outcome (get_db_connection cfg b) w = Val None
  /\ events (get_db_connection cfg b) w = [Log ERROR (logged_for cfg err)]
  /\ forall err', logged_for cfg err' = logged_for cfg err -> err' = err.
Proof.
  intros Hfail. unfold outcome.
  assert (Hrun : get_db_connection cfg b w
                 = (Val None, grown w (heap w) [Log ERROR (logged_for cfg err)])).
  { by rewrite get_db_connection_run, Hfail. }
  rewrite (events_grown _ _ _ _ _ Hrun), Hrun. split_and!; try done.
  intros err'. destruct err, err'; done.
Qed.

(** C7 as amended, at a refused borrow. *)
Lemma acquire_failures_logged_witness :
  acquire_failure mysql_deployment refusing = Some ConnectionError
  /\ events (get_db_connection mysql_deployment refusing) empty_world
     = [Log ERROR (ConnectionFailed DatabaseError)].
Proof.
  split; [reflexivity|].
  exact (proj1 (proj2 (acquire_failures_logged mysql_deployment refusing empty_world
                         ConnectionError eq_refl))).
Defined.

(** *** Flagging a player *)



(** *** Documents are passed by reference *)



(** *** An empty document counts as no session *)



End Claims.

(** ** What the decoder returns can be stored again *)

Module JsonSound.
Import Json JsonFacts StoreFacts.

Lemma encode_items_some (l : list pyval) :
  is_Some (encode_items l) <-> Forall (fun x => is_Some (encode x)) l.
Proof.
  induction l as [|x l IH]; cbn [encode_items].
  - split; [constructor | eauto].
  - rewrite Forall_cons, <- IH.
    destruct (encode x) as [e|]; cbn.
    + destruct (encode_items l) as [es|]; cbn.
      * split; [intros _; split; eauto | eauto].
      * split; [by intros [? ?] | by intros [_ [? ?]]].
    + split; [by intros [? ?] | by intros [[? ?] _]].
Qed.

Lemma encode_list_some (l : list pyval) :
  is_Some (encode (PList l)) <-> Forall (fun x => is_Some (encode x)) l.
Proof.
  destruct l as [|x l]; [split; [constructor | cbn; eauto]|].
  rewrite encode_list_cons, Forall_cons, <- encode_items_some.
  destruct (encode x) as [e|]; cbn.
  - destruct (encode_items l) as [es|]; cbn.
    + split; [intros _; split; eauto | eauto].
    + split; [by intros [? ?] | by intros [_ [? ?]]].
  - split; [by intros [? ?] | by intros [[? ?] _]].
Qed.

Lemma storable_list (l : list pyval) : Forall storable l -> storable (PList l).
Proof.
  intros Hl. split.
  - apply wf_list. eapply Forall_impl; [exact Hl|]. by intros x [? _].
  - apply encode_list_some. eapply Forall_impl; [exact Hl|]. by intros x [_ ?].
Qed.

Lemma dict_set_nodup k v (d : pydict) :
  NoDup (map fst d) -> NoDup (map fst (dict_set k v d)).
Proof.
  intros Hnd. rewrite dict_set_keys. case_decide as Hin; [done|].
  apply NoDup_app. split_and!; [done| |apply NoDup_singleton].
  intros x Hx ->%list_elem_of_singleton. done.
Qed.

Lemma dict_of_pairs_storable (ps : pydict) :
  Forall (fun kv => storable (snd kv)) ps -> storable (PDict (dict_of_pairs ps)).
Proof.
  intros Hps. unfold dict_of_pairs.
  assert (Hgen : forall d,
            NoDup (map fst d) -> Forall (fun kv => storable (snd kv)) d ->
            let d' := fold_left (fun d kv => dict_set (fst kv) (snd kv) d) ps d in
            NoDup (map fst d') /\ Forall (fun kv => storable (snd kv)) d').
  { induction Hps as [|[k v] ps Hkv _ IH]; intros d Hnd Hd; [done|].
    cbn [fold_left fst snd]. apply IH.
    - by apply dict_set_nodup.
    - by apply dict_set_Forall. }
  destruct (Hgen [] (NoDup_nil_2) (Forall_nil_2 _)) as [Hnd Hall].
  split.
  - apply wf_dict. split; [done|]. eapply Forall_impl; [exact Hall|]. by intros x [? _].
  - apply encode_dict_some. eapply Forall_impl; [exact Hall|]. by intros x [_ ?].
Qed.

Lemma scan_int_value (s r : list ascii) (v : pyval) :
  scan_int s = Some (v, r) -> exists z, v = PInt z.
Proof.
  unfold scan_int. intros H.
  repeat case_match; simplify_eq;
    apply bind_Some in H as ([m r'] & _ & H); simplify_eq; eauto.
Qed.

Lemma storable_int (s r : list ascii) (v : pyval) : scan_int s = Some (v, r) -> storable v.
Proof. intros [z ->]%scan_int_value. split; [done | cbn; eauto]. Qed.

Lemma storable_leaf (v : pyval) :
  match v with PNone | PBool _ | PInt _ | PStr _ => True | PList [] => True
  | PDict [] => True | _ => False end -> storable v.
Proof.
  destruct v as [|[]| | |[|]|[|]|]; try done; intros _;
    (split; [cbn; repeat constructor | cbn; eauto]).
Qed.

Ltac break_parse :=
  repeat first
    [ progress simplify_eq
    | match goal with
      | H : _ ≫= _ = Some _ |- _ => apply bind_Some in H as ([? ?] & ? & H)
      end
    | case_match ].

Lemma parse_sound (n : nat) :
  (forall s v r, parse_value n s = Some (v, r) -> storable v)
  /\ (forall s vs r, parse_items n s = Some (vs, r) -> Forall storable vs)
  /\ (forall s kvs r, parse_members n s = Some (kvs, r) ->
        Forall (fun kv => storable (snd kv)) kvs).
Proof.
  induction n as [|n (IHv & IHi & IHm)]; [by split_and!|].
  split_and!.
  - intros s v r H. cbn [parse_value] in H.
    repeat case_match; simplify_eq;
      try (by eapply storable_int);
      try (by apply storable_leaf);
      break_parse;
      try (by apply storable_leaf);
      try (apply storable_list; constructor; eauto);
      try (apply dict_of_pairs_storable; constructor; cbn [snd]; eauto).
  - intros s vs r H. cbn [parse_items] in H.
    break_parse; constructor; eauto.
  - intros s kvs r H. cbn [parse_members] in H.
    break_parse; constructor; cbn [snd]; eauto.
Qed.

Lemma loads_sound (s : string) (v : pyval) :
  loads s = Some v -> wf v /\ is_Some (dumps v).
Proof.
  unfold loads, decode, dumps. intros H.
  apply bind_Some in H as ([v' r] & Hparse & H).
  destruct (skip_ws r); [|done]. simplify_eq.
  destruct (parse_sound (S (length (chars s)))) as (Hv & _).
  destruct (Hv _ _ _ Hparse) as [Hwf Henc].
  split; [done|]. by apply fmap_is_Some.
Qed.
End JsonSound.

(** ** What the operations leave behind, and the start-up *)

Module Properties.
Import Json JsonFacts StoreFacts Claims JsonSound Sample Fixtures.

(** *** The sample worlds *)

Lemma sample_operational : operational mysql_deployment answering.
Proof. repeat split. Defined.

Lemma alice_row_text :
  lookup_row "alice" (table alice_saved) = Some (row_of "alice" alice_saved)
  /\ session_data (row_of "alice" alice_saved) = Some (text_of "alice" alice_saved)
  /\ Json.loads (text_of "alice" alice_saved) = Some (PDict stamped_document).
Proof. vm_compute. done. Defined.

Lemma list_row_value : forall d, PList [PInt 1] <> PDict d.
Proof. discriminate. Defined.

Lemma sample_history_entries :
  dict_get "internal_history" stamped_document = Some (PList (map PDict sample_history))
  /\ Forall (fun e => is_Some (dict_get "content" e)) sample_history.
Proof.
  split; [reflexivity|]. repeat constructor; eexists; reflexivity.
Defined.

Lemma gina_row_text :
  lookup_row "gina" (table broken_saved) = Some (row_of "gina" broken_saved)
  /\ session_data (row_of "gina" broken_saved) = Some (text_of "gina" broken_saved)
  /\ Json.loads (text_of "gina" broken_saved)
     = Some (PDict (dict_set "last_modified" (PInt 42) broken_document)).
Proof. vm_compute. done. Defined.

(** *** Saving and reading *)

Lemma storable_stamp (now : Z) (d : pydict) :
  storable (PDict d) -> storable (PDict (dict_set "last_modified" (PInt now) d)).
Proof.
  intros [Hwf Hser]. split; [by apply dict_set_wf|].
  apply encode_dict_some, dict_set_Forall; [cbn; eauto|]. by apply encode_dict_some.
Qed.

Lemma storable_dumps (v : pyval) :
  storable v -> exists blob, dumps v = Some blob /\ loads blob = Some v /\ blob <> ""%string.
Proof.
  intros [Hwf [e He]]. exists (string_of_list_ascii e).
  assert (Hd : dumps v = Some (string_of_list_ascii e)) by (unfold dumps; by rewrite He).
  split_and!; [done | by apply loads_dumps | by eapply dumps_nonempty].
Qed.

(** A save that goes through, and the read that follows it. *)
Lemma save_session_done (cfg : config) (b : backend) (now : Z) (pid : string)
    (doc : loc) (d : pydict) (w : world) :
  operational cfg b ->
  heap w !! doc = Some (PDict d) ->
  storable (PDict d) ->
  exists blob evs,
    Json.dumps (PDict (dict_set "last_modified" (PInt now) d)) = Some blob
    /\ save_session cfg b now pid doc w
       = (Val tt,
          World (<[doc := PDict (dict_set "last_modified" (PInt now) d)]> (heap w))
            (upsert pid blob (db_now b) (table w)) (pending w) (cursor_var w)
            (trace w ++ evs))
    /\ dispatches evs = 1.
Proof.
  intros (Hs & Hp & Hc & Hf) Hdoc Hst.
  destruct (storable_dumps _ (storable_stamp now d Hst)) as (blob & Hblob & _ & _).
  destruct (save_session_run cfg b now pid doc w) as (evs & Hrun & _ & Hcount).
  exists blob, evs. split; [done|].
  assert (Hthrough : save_goes_through cfg b now doc w = true).
  { unfold save_goes_through, acquires, stamped_text.
    rewrite Hs, Hp, Hc, Hf, Hdoc, Hblob. reflexivity. }
  rewrite Hthrough in Hcount. split; [|done].
  rewrite Hrun. unfold save_outcome, stamped_heap, saved_table, stamped_text, acquires.
  rewrite Hthrough, Hs, Hp, Hc, Hdoc, Hblob. cbn. by rewrite !andb_false_r.
Qed.

Lemma get_session_stored (cfg : config) (b : backend) (pid blob : string) (now : Z)
    (t : list row) (v : pyval) (w : world) :
  operational cfg b ->
  table w = upsert pid blob now t ->
  Json.loads blob = Some v -> blob <> ""%string -> v <> PNone ->
  get_session cfg b pid w
  = (Val (Some (length (heap w))),
     grown w (heap w ++ [v]) [Executed (SelectSession pid); CursorClosed; ConnClosed]).
Proof.
  intros Hop Htable Hloads Hne Hv.
  destruct (matching_upsert pid blob now t) as (r & Hr & Hdata).
  eapply get_session_found; try done.
  unfold lookup_row. by rewrite Htable.
Qed.



Lemma closes_app (tr1 tr2 : list event) : closes (tr1 ++ tr2) = closes tr1 + closes tr2.
Proof.
  induction tr1 as [|e tr1 IH]; [done|].
  destruct e; cbn; rewrite ?IH; done.
Qed.

(** Whatever the deployment and the database do, a read returns, changes
    no row, dispatches nothing, and gives its connection back. *)
Lemma get_session_any (cfg : config) (b : backend) (pid : string) (w : world) :
  exists res hp evs,
    get_session cfg b pid w = (Val res, grown w hp evs)
    /\ writes evs = 0 /\ dispatches evs = 0
    /\ closes evs = (if acquires cfg b then 1 else 0)
    /\ (res = None /\ hp = heap w
        \/ exists v, res = Some (length (heap w)) /\ hp = heap w ++ [v] /\ v <> PNone).
Proof.
  unfold grown. rewrite acquires_failure.
  unfold get_session, call. unfold mbind at 1. unfold M_bind at 1.
  rewrite get_db_connection_run. cbn [heap table pending cursor_var trace].
  destruct (acquire_failure cfg b) as [err|] eqn:Hacq.
  { eexists _, _, _. cbn. split; [reflexivity|]. split_and!; try done. by left. }
  unfold conn_of. unfold_monad. cbn [heap table pending cursor_var trace].
  destruct (String.eqb (scheme cfg) "sqlite"), (failure b) as [|[]| |];
    cbn -[matching Json.loads String.eqb];
    try (eexists _, _, _; split;
         [ rewrite <- ?app_assoc; reflexivity
         | split_and!; try done; by left ]).
  all: destruct (head (matching pid (table w))) as [r|];
    cbn -[matching Json.loads String.eqb];
    try (eexists _, _, _; split;
         [ rewrite <- ?app_assoc; reflexivity
         | split_and!; try done; by left ]).
  all: destruct (session_data r) as [blob|];
    cbn -[matching Json.loads String.eqb];
    try (eexists _, _, _; split;
         [ rewrite <- ?app_assoc; reflexivity
         | split_and!; try done; by left ]).
  all: destruct (String.eqb blob "");
    cbn -[matching Json.loads String.eqb];
    try (eexists _, _, _; split;
         [ rewrite <- ?app_assoc; reflexivity
         | split_and!; try done; by left ]).
  all: destruct (loads blob) as [v|];
    cbn -[matching Json.loads String.eqb];
    try (eexists _, _, _; split;
         [ rewrite <- ?app_assoc; reflexivity
         | split_and!; try done; by left ]).
  all: destruct v;
    cbn -[matching Json.loads String.eqb];
    (eexists _, _, _; split;
     [ rewrite <- ?app_assoc; reflexivity
     | split_and!; try done; first [by left | right; eexists; split_and!; done] ]).
Qed.

(** The closes and the writes of a save. *)
Lemma save_session_effects (cfg : config) (b : backend) (now : Z)
    (pid : string) (doc : loc) (w : world) :
  exists evs,
    trace (snd (save_session cfg b now pid doc w)) = trace w ++ evs
    /\ closes evs
       = (if acquires cfg b
          then match save_outcome cfg b now doc w with Val _ => 1 | Exc _ => 0 end
          else 0)
    /\ (save_goes_through cfg b now doc w = true -> writes evs = 2)
    /\ (writes evs = 0 \/ writes evs = 1 \/ writes evs = 2).
Proof.
  unfold save_outcome, save_goes_through, stamped_text.
  rewrite acquires_failure.
  unfold save_session, call. unfold mbind at 1. unfold M_bind at 1.
  rewrite get_db_connection_run. cbn [heap table pending cursor_var trace].
  destruct (acquire_failure cfg b) as [err|] eqn:Hacq.
  { cbn. eexists. split; [reflexivity|]. cbn. split_and!; try done. by left. }
  unfold conn_of. unfold acquire_failure in Hacq.
  unfold_monad. cbn [heap table pending cursor_var trace].
  assert (Hfin : forall (tr : list event) (evs : list event) (c : nat) (g : bool),
            tr = trace w ++ evs ->
            closes evs = c ->
            (g = true -> writes evs = 2) ->
            (writes evs = 0 \/ writes evs = 1 \/ writes evs = 2) ->
            exists evs', tr = trace w ++ evs' /\ closes evs' = c
                         /\ (g = true -> writes evs' = 2)
                         /\ (writes evs' = 0 \/ writes evs' = 1 \/ writes evs' = 2))
    by (intros; eauto).
  destruct (heap w !! doc) as [v|] eqn:Hdoc.
  2: { case_scheme cfg Hacq; destruct (failure b) as [|[]| |]; cbn;
         (eapply Hfin;
          [ rewrite <- ?app_assoc; first [reflexivity | rewrite app_nil_r; reflexivity]
          | cbn; done .. | cbn; tauto ]). }
  assert (Hlen : doc < length (heap w)) by (by eapply lookup_lt_Some).
  destruct v as [| | | | |d|];
    try (case_scheme cfg Hacq; destruct (failure b) as [|[]| |]; cbn;
         (eapply Hfin;
          [ rewrite <- ?app_assoc; first [reflexivity | rewrite app_nil_r; reflexivity]
          | cbn; done .. | cbn; tauto ])).
  cbn [heap table pending cursor_var trace].
  rewrite list_lookup_insert_eq by done. cbn [from_option id].
  destruct (dumps (PDict (dict_set "last_modified" (PInt now) d))) as [blob|];
    case_scheme cfg Hacq; destruct (failure b) as [|[]| |]; cbn;
    (eapply Hfin;
     [ rewrite <- ?app_assoc; first [reflexivity | rewrite app_nil_r; reflexivity]
     | cbn; done .. | cbn; tauto ]).
Qed.

(** *** The table under [upsert] *)

Lemma upsert_keys (pid blob : string) (now : Z) (t : list row) :
  map player_id (upsert pid blob now t)
  = if decide (pid ∈ map player_id t) then map player_id t
    else map player_id t ++ [pid].
Proof.
  induction t as [|r t IH]; [done|].
  cbn [upsert map]. destruct (String.eqb (player_id r) pid) eqn:Hr.
  - apply String.eqb_eq in Hr as <-.
    destruct (decide (session_data r = Some blob)); cbn [map player_id];
      by rewrite decide_True by apply list_elem_of_here.
  - apply String.eqb_neq in Hr. cbn [map]. rewrite IH.
    destruct (decide (pid ∈ map player_id t)) as [Hin|Hin].
    + rewrite decide_True by (by apply list_elem_of_further). done.
    + rewrite decide_False; [done|]. rewrite not_elem_of_cons. split; [congruence|done].
Qed.

Lemma upsert_nodup (pid blob : string) (now : Z) (t : list row) :
  NoDup (map player_id t) -> NoDup (map player_id (upsert pid blob now t)).
Proof.
  intros Hnd. rewrite upsert_keys. case_decide as Hin; [done|].
  apply NoDup_app. split_and!; [done| |apply NoDup_singleton].
  intros x Hx ->%list_elem_of_singleton. done.
Qed.

Lemma upsert_other (pid pid' blob : string) (now : Z) (t : list row) :
  pid' <> pid -> matching pid' (upsert pid blob now t) = matching pid' t.
Proof.
  intros Hne. unfold matching. induction t as [|r t IH]; cbn [upsert].
  - rewrite filter_cons, decide_False; [done|].
    cbn [player_id]. rewrite String.eqb_eq. congruence.
  - destruct (String.eqb (player_id r) pid) eqn:Hr.
    + apply String.eqb_eq in Hr.
      rewrite !filter_cons. rewrite !decide_False; [done| |].
      * rewrite String.eqb_eq. congruence.
      * destruct (decide (session_data r = Some blob)); cbn [player_id];
          rewrite String.eqb_eq; congruence.
    + rewrite !filter_cons, IH. done.
Qed.

Lemma saved_table_cases (cfg : config) (b : backend) (now : Z) (pid : string)
    (doc : loc) (w : world) :
  saved_table cfg b now pid doc w = table w
  \/ exists blob, saved_table cfg b now pid doc w = upsert pid blob (db_now b) (table w).
Proof.
  unfold saved_table. destruct (save_goes_through _ _ _ _ _); [|by left].
  destruct (stamped_text now doc w) as [blob|]; [right; eauto | by left].
Qed.

(** X2.  When no two rows of the table have the same [player_id], no two
    have after [save_session], whatever the deployment, the database and the
    document do. *)
Theorem save_keeps_primary_key (cfg : config) (b : backend) (now : Z)
    (pid : string) (doc : loc) (w : world) :
  NoDup (map player_id (table w)) ->
  NoDup (map player_id (table (after (save_session cfg b now pid doc) w))).
Proof.
  intros Hnd. destruct (save_session_run cfg b now pid doc w) as (evs & Hrun & _).
  unfold after. rewrite Hrun. cbn [snd table].
  destruct (saved_table_cases cfg b now pid doc w) as [-> | [blob ->]]; [done|].
  by apply upsert_nodup.
Qed.

(** X2 at a second save for bob in the table of alice and bob. *)
Lemma save_keeps_primary_key_witness :
  NoDup (map player_id (table two_players))
  /\ NoDup (map player_id
              (table (after (save_session mysql_deployment answering 60 "bob" 0)
                        two_players))).
Proof.
  assert (H : NoDup (map player_id (table two_players))).
  { vm_compute. repeat constructor; rewrite ?elem_of_cons, ?elem_of_nil;
      intuition discriminate. }
  split; [exact H|].
  exact (save_keeps_primary_key mysql_deployment answering 60 "bob" 0 two_players H).
Defined.

(** X3.  [save_session] for one player leaves the row of every other player
    as it was. *)
Theorem save_leaves_other_players (cfg : config) (b : backend) (now : Z)
    (pid pid' : string) (doc : loc) (w : world) :
  pid' <> pid ->
  lookup_row pid' (table (after (save_session cfg b now pid doc) w))
  = lookup_row pid' (table w).
Proof.
  intros Hne. destruct (save_session_run cfg b now pid doc w) as (evs & Hrun & _).
  unfold after. rewrite Hrun. cbn [snd table].
  destruct (saved_table_cases cfg b now pid doc w) as [-> | [blob ->]]; [done|].
  unfold lookup_row. by rewrite upsert_other.
Qed.

(** X3 at the save for bob, seen from alice. *)
Lemma save_leaves_other_players_witness :
  "alice"%string <> "bob"%string
  /\ lookup_row "alice" (table two_players) = lookup_row "alice" (table alice_saved).
Proof.
  assert (H : "alice"%string <> "bob"%string) by discriminate.
  split; [exact H|].
  exact (save_leaves_other_players mysql_deployment later 43 "bob" "alice" 0
           alice_saved H).
Defined.

(** X4.  When one step of a save does not go through (no connection, a
    document that cannot be written as text, a refused statement or commit)
    the table is as before and nothing is dispatched to the sinks. *)
Theorem failed_save_changes_no_row (cfg : config) (b : backend) (now : Z)
    (pid : string) (doc : loc) (w : world) :
  save_goes_through cfg b now doc w = false ->
  table (after (save_session cfg b now pid doc) w) = table w
  /\ dispatches (events (save_session cfg b now pid doc) w) = 0.
Proof.
  intros Hfail. destruct (save_session_run cfg b now pid doc w) as (evs & Hrun & _ & Hd).
  assert (Htrace : trace (snd (save_session cfg b now pid doc w)) = trace w ++ evs)
    by (by rewrite Hrun).
  rewrite (events_app _ _ _ Htrace). unfold after. rewrite Hrun. cbn [snd table].
  unfold saved_table. rewrite Hfail in *. done.
Qed.

(** X4 at a database that refuses the statement. *)
Lemma failed_save_changes_no_row_witness :
  save_goes_through mysql_deployment rejecting 60 0 alice_saved = false
  /\ table (after (save_session mysql_deployment rejecting 60 "alice" 0) alice_saved)
     = table alice_saved.
Proof.
  assert (H : save_goes_through mysql_deployment rejecting 60 0 alice_saved = false)
    by (vm_compute; reflexivity).
  split; [exact H|].
  exact (proj1 (failed_save_changes_no_row mysql_deployment rejecting 60 "alice" 0
                  alice_saved H)).
Defined.



(** *** Rows that hold no session *)

Lemma get_session_blank (cfg : config) (b : backend) (pid : string)
    (w : world) (r : row) :
  operational cfg b ->
  lookup_row pid (table w) = Some r ->
  session_data r = None \/ session_data r = Some ""%string
  \/ session_data r = Some "null"%string ->
  get_session cfg b pid w
  = (Val None, grown w (heap w) [Executed (SelectSession pid); CursorClosed; ConnClosed]).
Proof.
  intros (Hs & Hp & Hc & Hf) Hrow Hdata.
  unfold get_session, get_db_connection, lookup_row, grown in *. unfold_monad.
  rewrite Hs, Hp, Hc, Hf. cbn -[matching]. rewrite Hrow. cbn -[matching].
  destruct Hdata as [-> | [-> | ->]]; cbn; rewrite <- !app_assoc; reflexivity.
Qed.

(** X7.  On a MySQL deployment whose database answers, a row whose text is
    NULL, empty, or the JSON [null] reads as no session: [get_session]
    returns [None], logs no error and creates no object. *)
Theorem blank_row_reads_as_absent (cfg : config) (b : backend) (pid : string)
    (w : world) (r : row) :
  operational cfg b ->
  lookup_row pid (table w) = Some r ->
  session_data r = None \/ session_data r = Some ""%string
  \/ session_data r = Some "null"%string ->
  outcome (get_session cfg b pid) w = Val None
  /\ errors (events (get_session cfg b pid) w) = []
  /\ heap (after (get_session cfg b pid) w) = heap w.
Proof.
  intros Hop Hrow Hdata.
  pose proof (get_session_blank cfg b pid w r Hop Hrow Hdata) as Hrun.
  unfold outcome, after. rewrite (events_grown _ _ _ _ _ Hrun), Hrun. done.
Qed.

(** X7 at a row without text. *)
Lemma blank_row_reads_as_absent_witness :
  lookup_row "erin" (table null_world) = Some null_row
  /\ outcome (get_session mysql_deployment answering "erin") null_world = Val None.
Proof.
  split; [reflexivity|].
  exact (proj1 (blank_row_reads_as_absent mysql_deployment answering "erin"
                  null_world null_row sample_operational eq_refl (or_introl eq_refl))).
Defined.

(** *** [create_or_get_session] *)

(** What the call does once the read has answered [None]. *)
Lemma create_after_none (cfg : config) (b1 b2 : backend) (now : Z) (pid : string)
    (w : world) (evs : list event) :
  operational cfg b2 ->
  get_session cfg b1 pid w = (Val None, grown w (heap w) evs) ->
  exists blob evs',
    Json.dumps (PDict [("last_modified"%string, PInt now)]) = Some blob
    /\ Json.loads blob = Some (PDict [("last_modified"%string, PInt now)])
    /\ blob <> ""%string
    /\ create_or_get_session cfg b1 b2 now pid w
       = (Val (Some (length (heap w))),
          World (heap w ++ [PDict [("last_modified"%string, PInt now)]])
            (upsert pid blob (db_now b2) (table w)) (pending w) (cursor_var w)
            (trace w ++ evs ++ evs')).
Proof.
  intros Hop Hget.
  set (w0 := World (heap w ++ [PDict []]) (table w) (pending w) (cursor_var w)
               (trace w ++ evs)).
  assert (Hdoc : heap w0 !! length (heap w) = Some (PDict [])).
  { cbn [heap w0]. by rewrite lookup_app_r, Nat.sub_diag. }
  assert (Hst : storable (PDict [])) by (by apply storable_leaf).
  destruct (save_session_done cfg b2 now pid (length (heap w)) [] w0 Hop Hdoc Hst)
    as (blob & evs' & Hblob & Hsave & _).
  destruct (storable_dumps _ (storable_stamp now [] Hst)) as (blob' & Hblob' & Hloads & Hne).
  assert (blob' = blob) as -> by congruence.
  cbn [dict_set] in *. exists blob, evs'. split_and!; try done.
  unfold create_or_get_session. rewrite (bind_val _ _ _ _ _ Hget).
  unfold mbind at 1. unfold M_bind at 1. unfold alloc at 1.
  change (World (heap (grown w (heap w) evs) ++ [PDict []]) (table (grown w (heap w) evs))
            (pending (grown w (heap w) evs)) (cursor_var (grown w (heap w) evs))
            (trace (grown w (heap w) evs))) with w0.
  change (length (heap (grown w (heap w) evs))) with (length (heap w)).
  rewrite (bind_val _ _ _ _ _ Hsave). unfold mret, M_ret. cbn [heap table pending cursor_var trace w0].
  f_equal. f_equal; [|by rewrite <- app_assoc].
  rewrite insert_app_r_alt, Nat.sub_diag by done. done.
Qed.







(** *** [flag_player_for_punishment] *)



(** X12.  On a MySQL deployment whose database answers, when the stored text
    decodes to a truthy value that is no object (a list, a number, a string,
    [true]), [flag_player_for_punishment] raises [TypeError] and writes
    nothing. *)
Theorem flag_non_object_raises (cfg : config) (b1 b2 : backend) (now : Z)
    (pid level reason : string) (w : world) (r : row) (blob : string) (v : pyval) :
  operational cfg b1 ->
  lookup_row pid (table w) = Some r ->
  session_data r = Some blob ->
  Json.loads blob = Some v ->
  truthy v = true ->
  (forall d, v <> PDict d) ->
  let flag := flag_player_for_punishment cfg b1 b2 now pid level reason in
  outcome flag w = Exc TypeError
  /\ table (after flag w) = table w
  /\ writes (events flag w) = 0
  /\ dispatches (events flag w) = 0.
Proof.
  intros Hop Hrow Hdata Hloads Htruthy Hv flag.
  assert (Hne : blob <> ""%string) by (intros ->; done).
  assert (Hnone : v <> PNone) by (by intros ->).
  pose proof (get_session_found cfg b1 pid w r blob v Hop Hrow Hdata Hne Hloads Hnone)
    as Hget.
  assert (Hrun : flag w
    = (Exc TypeError,
       grown w (heap w ++ [v]) [Executed (SelectSession pid); CursorClosed; ConnClosed])).
  { unfold flag, flag_player_for_punishment. rewrite (bind_val _ _ _ _ _ Hget).
    unfold truth, deref, setitem, mbind, M_bind, mret, M_ret, grown.
    cbn [heap table pending cursor_var trace].
    rewrite lookup_app_r, Nat.sub_diag by done.
    cbn [lookup list_lookup from_option id].
    rewrite Htruthy. cbn [negb heap table pending cursor_var trace].
    rewrite lookup_app_r, Nat.sub_diag by done. cbn [lookup list_lookup].
    destruct v; try done. by destruct (Hv d). }
  unfold outcome, after. rewrite (events_grown _ _ _ _ _ Hrun), Hrun. done.
Qed.

(** X12 at a row whose text is a list. *)
Lemma flag_non_object_raises_witness :
  Json.loads "[1]" = Some (PList [PInt 1])
  /\ outcome (flag_player_for_punishment mysql_deployment answering answering 50
                "frank" "high" "cheating") list_world
     = Exc TypeError.
Proof.
  assert (H : Json.loads "[1]" = Some (PList [PInt 1])) by (vm_compute; reflexivity).
  split; [exact H|].
  exact (proj1 (flag_non_object_raises mysql_deployment answering answering 50
                  "frank" "high" "cheating" list_world list_row "[1]" (PList [PInt 1])
                  sample_operational eq_refl eq_refl H eq_refl list_row_value)).
Defined.



(** *** [get_last_n_inputs] *)

(** Once the session is read as an object with entries, the call goes on
    with its history; nothing is caught on the way. *)
Lemma get_last_n_inputs_found (cfg : config) (b : backend) (pid : string) (n : Z)
    (w : world) (r : row) (blob : string) (d : pydict) :
  operational cfg b ->
  lookup_row pid (table w) = Some r ->
  session_data r = Some blob ->
  Json.loads blob = Some (PDict d) ->
  d <> [] ->
  get_last_n_inputs cfg b pid n w
  = (items ← iterate (default (PList []) (dict_get "internal_history" d));
     inputs ← user_contents items;
     mret (slice_from (- n) inputs))
      (grown w (heap w ++ [PDict d])
         [Executed (SelectSession pid); CursorClosed; ConnClosed]).
Proof.
  intros Hop Hrow Hdata Hloads Hd.
  assert (Hne : blob <> ""%string) by (intros ->; done).
  pose proof (get_session_found cfg b pid w r blob (PDict d)
                Hop Hrow Hdata Hne Hloads ltac:(done)) as Hget.
  unfold get_last_n_inputs. rewrite (bind_val _ _ _ _ _ Hget).
  unfold grown, truth, get_method, deref, mbind, M_bind, mret, M_ret.
  cbn [heap]. rewrite !lookup_app_r by done. rewrite !Nat.sub_diag.
  cbn [lookup list_lookup from_option id].
  assert (Htruthy : truthy (PDict d) = true) by (by destruct d).
  rewrite Htruthy. cbn [negb heap].
  rewrite !lookup_app_r by done. rewrite !Nat.sub_diag.
  cbn [lookup list_lookup from_option id]. reflexivity.
Qed.

Lemma get_last_n_inputs_history (cfg : config) (b : backend) (pid : string) (n : Z)
    (w : world) (r : row) (blob : string) (d : pydict) (history : list pydict) :
  operational cfg b ->
  lookup_row pid (table w) = Some r ->
  session_data r = Some blob ->
  Json.loads blob = Some (PDict d) ->
  dict_get "internal_history" d = Some (PList (map PDict history)) ->
  Forall (fun e => is_Some (dict_get "content" e)) history ->
  get_last_n_inputs cfg b pid n w
  = (Val (slice_from (- n) (user_inputs history)),
     grown w (heap w ++ [PDict d])
       [Executed (SelectSession pid); CursorClosed; ConnClosed]).
Proof.
  intros Hop Hrow Hdata Hloads Hhist Hwf.
  assert (Hd : d <> []) by (by intros ->).
  rewrite (get_last_n_inputs_found cfg b pid n w r blob d) by done.
  rewrite Hhist. cbn [from_option id iterate].
  unfold mbind, M_bind, mret, M_ret.
  by rewrite user_contents_entries.
Qed.







(** The comprehension stops at the first entry of the player that has no
    content. *)
Lemma user_contents_key_error (before : list pydict) (e : pydict)
    (rest : list pyval) (w : world) :
  Forall (fun e => is_Some (dict_get "content" e)) before ->
  equals_str (dict_get "role" e) "user" = true ->
  dict_get "content" e = None ->
  user_contents (map PDict before ++ PDict e :: rest) w = (Exc KeyError, w).
Proof.
  intros Hbefore Hrole Hcontent.
  induction Hbefore as [|e' before [content He'] _ IH].
  - cbn [map app user_contents]. by rewrite Hrole, Hcontent.
  - cbn [map app user_contents]. unfold mbind, M_bind.
    destruct (equals_str (dict_get "role" e') "user"); [|exact IH].
    by rewrite He', IH.
Qed.



(** X18.  On a MySQL deployment whose database answers, when the stored text
    decodes to a truthy value that is no object, [get_last_n_inputs] raises
    [AttributeError]. *)
Theorem last_n_inputs_non_object (cfg : config) (b : backend) (pid : string)
    (n : Z) (w : world) (r : row) (blob : string) (v : pyval) :
  operational cfg b ->
  lookup_row pid (table w) = Some r ->
  session_data r = Some blob ->
  Json.loads blob = Some v ->
  truthy v = true ->
  (forall d, v <> PDict d) ->
  outcome (get_last_n_inputs cfg b pid n) w = Exc AttributeError.
Proof.
  intros Hop Hrow Hdata Hloads Htruthy Hv.
  assert (Hne : blob <> ""%string) by (intros ->; done).
  assert (Hnone : v <> PNone) by (by intros ->).
  pose proof (get_session_found cfg b pid w r blob v Hop Hrow Hdata Hne Hloads Hnone)
    as Hget.
  unfold outcome, get_last_n_inputs. rewrite (bind_val _ _ _ _ _ Hget).
  unfold grown, truth, get_method, deref, mbind, M_bind, mret, M_ret.
  cbn [heap]. rewrite !lookup_app_r by done. rewrite !Nat.sub_diag.
  cbn [lookup list_lookup from_option id].
  rewrite Htruthy. cbn [negb heap].
  rewrite !lookup_app_r by done. rewrite !Nat.sub_diag.
  cbn [lookup list_lookup from_option id].
  destruct v; try done. by destruct (Hv d).
Qed.

(** X18 at a row whose text is a list. *)
Lemma last_n_inputs_non_object_witness :
  truthy (PList [PInt 1]) = true
  /\ outcome (get_last_n_inputs mysql_deployment answering "frank" 1) list_world
     = Exc AttributeError.
Proof.
  split; [reflexivity|].
  assert (H : Json.loads "[1]" = Some (PList [PInt 1])) by (vm_compute; reflexivity).
  exact (last_n_inputs_non_object mysql_deployment answering "frank" 1
           list_world list_row "[1]" (PList [PInt 1])
           sample_operational eq_refl eq_refl H eq_refl list_row_value).
Defined.

(** *** [get_most_recent_sessions] *)

(** Whatever the deployment and the database do, the listing returns a
    list: nothing, or the summaries of the rows selected. *)
Lemma recent_sessions_any (cfg : config) (enc : string -> string) (b : backend)
    (limit : Z) (w : world) :
  exists l hp evs,
    get_most_recent_sessions cfg enc b limit w = (Val l, grown w hp evs)
    /\ writes evs = 0 /\ dispatches evs = 0
    /\ closes evs = (if acquires cfg b then 1 else 0)
    /\ (l = [] \/ mapM (summary_of enc) (most_recent limit (table w)) = Some l).
Proof.
  unfold grown. rewrite acquires_failure.
  unfold get_most_recent_sessions, call. unfold mbind at 1. unfold M_bind at 1.
  rewrite get_db_connection_run. cbn [heap table pending cursor_var trace].
  destruct (acquire_failure cfg b) as [err|] eqn:Hacq.
  { eexists _, _, _. cbn. split; [reflexivity|]. split_and!; try done. by left. }
  unfold conn_of. unfold_monad. cbn [heap table pending cursor_var trace].
  destruct (String.eqb (scheme cfg) "sqlite"), (failure b) as [|[]| |],
    (limit <? 0)%Z;
    cbn -[most_recent summarize];
    try match goal with |- context [summarize enc ?rows ?res ?w'] =>
      let hp := fresh "hp" in let Hrun := fresh "Hrun" in
      destruct (summarize_run enc rows res w') as (hp & Hrun);
      destruct (mapM (summary_of enc) rows) as [l0|];
      [|let e := fresh "e" in destruct Hrun as (e & Hrun)];
      unfold grown in Hrun; cbn [heap table pending cursor_var trace] in Hrun;
      rewrite app_nil_r in Hrun; rewrite Hrun; cbn -[most_recent]
    end;
    (eexists _, _, _; split;
     [ rewrite <- ?app_assoc; reflexivity
     | split_and!; try done; first [by left | by right] ]).
Qed.

(** With an answering database and a limit that is no negative number the
    listing is the summaries of the rows selected, or nothing. *)
Lemma recent_sessions_operational (cfg : config) (enc : string -> string)
    (b : backend) (limit : Z) (w : world) :
  operational cfg b ->
  (0 <= limit)%Z ->
  exists hp evs,
    get_most_recent_sessions cfg enc b limit w
    = (Val (default [] (mapM (summary_of enc) (most_recent limit (table w)))),
       grown w hp evs).
Proof.
  intros (Hs & Hp & Hc & Hf) Hlimit.
  apply Z.ltb_ge in Hlimit.
  unfold get_most_recent_sessions, get_db_connection.
  unfold call, connect, try_except, try_finally, release, is_connected,
    conn_cursor, execute, fetchall, log, emit, cursor_close, conn_close, visible,
    raise, mbind, M_bind, mret, M_ret.
  rewrite Hs, Hp, Hc, Hf. cbn -[most_recent summarize Z.ltb].
  rewrite Hlimit. cbn -[most_recent summarize].
  match goal with |- context [summarize enc ?rows ?res ?w'] =>
    destruct (summarize_run enc rows res w') as (hp & Hrun) end.
  exists hp. unfold grown in *. cbn [heap table pending cursor_var trace] in Hrun.
  rewrite app_nil_r in Hrun.
  destruct (mapM (summary_of enc) (most_recent limit (table w))) as [l|].
  - rewrite Hrun. cbn. eexists. by rewrite <- !app_assoc.
  - destruct Hrun as (e & Hrun). rewrite Hrun. cbn. eexists. by rewrite <- !app_assoc.
Qed.

(** The rows in the order of the query, and what the order is. *)
Lemma insert_desc_perm (r : row) (sorted : list row) :
  insert_desc r sorted ≡ₚ r :: sorted.
Proof.
  induction sorted as [|x sorted IH]; [done|].
  cbn [insert_desc]. destruct (last_modified x <? last_modified r)%Z; [done|].
  rewrite IH. apply Permutation_swap.
Qed.

Lemma ordered_perm (t : list row) : foldr insert_desc [] t ≡ₚ t.
Proof.
  induction t as [|r t IH]; [done|].
  cbn [foldr]. by rewrite insert_desc_perm, IH.
Qed.

Lemma insert_desc_descending (r : row) (sorted : list row) :
  descending sorted -> descending (insert_desc r sorted).
Proof.
  induction sorted as [|x sorted IH]; intros Hsorted.
  - cbn. by split.
  - cbn [insert_desc].
    destruct (Z.ltb_spec (last_modified x) (last_modified r)) as [Hlt | Hge].
    + split; [|done]. destruct Hsorted as [Hx _].
      apply Forall_cons. split; [lia|].
      eapply Forall_impl; [exact Hx|]. intros r' Hr'. cbn in Hr'. lia.
    + destruct Hsorted as [Hx Hsorted]. split; [|by apply IH].
      rewrite insert_desc_perm. by apply Forall_cons.
Qed.

Lemma ordered_descending (t : list row) : descending (foldr insert_desc [] t).
Proof.
  induction t as [|r t IH]; [done|].
  cbn [foldr]. by apply insert_desc_descending.
Qed.

Lemma descending_app (t1 t2 : list row) :
  descending (t1 ++ t2) ->
  descending t1
  /\ forall r1 r2, r1 ∈ t1 -> r2 ∈ t2 -> (last_modified r2 <= last_modified r1)%Z.
Proof.
  induction t1 as [|r t1 IH]; intros Hd.
  - split; [done|]. intros r1 r2 Hr1. by apply elem_of_nil in Hr1.
  - destruct Hd as [Hr Hd]. apply Forall_app in Hr as [Hr1 Hr2].
    destruct (IH Hd) as [Hd1 Hcross]. split; [by split|].
    intros r1 r2 Hin1 Hin2. apply elem_of_cons in Hin1 as [-> | Hin1].
    + by apply (proj1 (Forall_forall _ _) Hr2).
    + by apply Hcross.
Qed.




(** *** The name shown for a player *)

Lemma length_append (s1 s2 : string) :
  String.length (s1 +:+ s2) = String.length s1 + String.length s2.
Proof.
  induction s1 as [|c s1 IH]; [done|].
  change (String c s1 +:+ s2) with (String c (s1 +:+ s2)).
  cbn [String.length]. by rewrite IH.
Qed.

Lemma char_at_length (i : nat) (s : string) :
  i < String.length s -> String.length (char_at i s) = 1.
Proof.
  revert i. induction s as [|c s IH]; intros i Hi; [cbn in Hi; lia|].
  unfold char_at. destruct i as [|i]; [done|].
  cbn [String.get]. apply IH. cbn in Hi. lia.
Qed.


(** *** Without a connection *)

Lemma refused_run (cfg : config) (enc : string -> string) (b : backend)
    (err : acquire_error) (w : world) :
  acquire_failure cfg b = Some err ->
  let w' := grown w (heap w) [Log ERROR (logged_for cfg err)] in
  (forall pid, get_session cfg b pid w = (Val None, w'))
  /\ (forall now pid doc, save_session cfg b now pid doc w = (Val tt, w'))
  /\ (forall limit, get_most_recent_sessions cfg enc b limit w = (Val [], w')).
Proof.
  intros Hfail w'. subst w'. unfold grown.
  split_and!; intros;
    unfold get_session, save_session, get_most_recent_sessions, call;
    unfold mbind at 1; unfold M_bind at 1;
    rewrite get_db_connection_run, Hfail; reflexivity.
Qed.

(** X22.  When [get_db_connection] hands out no connection, [get_session]
    returns [None], [save_session] returns without storing and without
    raising, and the listing is empty; all three leave the world that the
    one logged error leaves. *)
Theorem without_connection_nothing_happens (cfg : config) (enc : string -> string)
    (b : backend) (err : acquire_error) (now limit : Z) (pid : string) (doc : loc)
    (w : world) :
  acquire_failure cfg b = Some err ->
  let read := get_session cfg b pid in
  let write := save_session cfg b now pid doc in
  let list := get_most_recent_sessions cfg enc b limit in
  outcome read w = Val None
  /\ outcome write w = Val tt
  /\ outcome list w = Val []
  /\ after write w = grown w (heap w) [Log ERROR (logged_for cfg err)]
  /\ after read w = after write w
  /\ after list w = after write w.
Proof.
  intros Hfail read write list.
  destruct (refused_run cfg enc b err w Hfail) as (Hread & Hwrite & Hlist).
  unfold outcome, after, read, write, list.
  by rewrite Hread, Hwrite, Hlist.
Qed.

(** X22 at a pool that lends no connection. *)
Lemma without_connection_nothing_happens_witness :
  acquire_failure mysql_deployment refusing = Some ConnectionError
  /\ outcome (save_session mysql_deployment refusing 50 "alice" 0) alice_saved = Val tt.
Proof.
  split; [reflexivity|].
  exact (proj1 (proj2
           (without_connection_nothing_happens mysql_deployment encrypt refusing
              ConnectionError 50 10 "alice" 0 alice_saved eq_refl))).
Defined.

(** *** A SQLite deployment *)

(** X23.  With a SQLite URL the statements of the store, written with the
    markers of MySQL, are all refused: [get_session] returns [None], the
    listing is empty, [save_session] changes no row and dispatches nothing,
    and each read logs one error. *)
Theorem sqlite_store_is_inert (cfg : config) (enc : string -> string) (b : backend)
    (now limit : Z) (pid : string) (doc : loc) (w : world) :
  scheme cfg = "sqlite"%string ->
  let read := get_session cfg b pid in
  let write := save_session cfg b now pid doc in
  let list := get_most_recent_sessions cfg enc b limit in
  outcome read w = Val None
  /\ outcome list w = Val []
  /\ table (after write w) = table w
  /\ writes (events write w) = 0
  /\ dispatches (events write w) = 0
  /\ length (errors (events read w)) = 1
  /\ length (errors (events list w)) = 1.
Proof.
  intros Hs read write list.
  assert (Hrun : exists evs1 evs2 evs3 r hp,
            read w = (Val None, grown w (heap w) evs1)
            /\ list w = (Val [], grown w (heap w) evs2)
            /\ write w = (r, grown w hp evs3)
            /\ length (errors evs1) = 1 /\ length (errors evs2) = 1
            /\ writes evs3 = 0 /\ dispatches evs3 = 0).
  { unfold read, list, write, get_session, get_most_recent_sessions, save_session,
      get_db_connection, grown.
    unfold_monad. rewrite Hs. cbn [String.eqb Ascii.eqb Bool.eqb].
    destruct (connect_ok b); cbn [heap table pending cursor_var trace].
    2: { eexists _, _, _, _, _. split_and!; try reflexivity. }
    destruct (heap w !! doc) as [[| | | | |d|]|] eqn:Hdoc;
      cbn [heap table pending cursor_var trace];
      rewrite ?list_lookup_insert_eq by (by eapply lookup_lt_Some);
      cbn [from_option id];
      try destruct (dumps (PDict (dict_set "last_modified" (PInt now) d)));
      destruct (failure b) as [|[]| |]; cbn;
      eexists _, _, _, _, _; rewrite <- ?app_assoc;
      split_and!; reflexivity. }
  destruct Hrun as (evs1 & evs2 & evs3 & r & hp & Hread & Hlist & Hwrite
                    & He1 & He2 & Hw & Hd).
  unfold outcome, after.
  rewrite (events_grown _ _ _ _ _ Hread), (events_grown _ _ _ _ _ Hlist),
    (events_grown _ _ _ _ _ Hwrite), Hread, Hlist, Hwrite. done.
Qed.

(** X23 at a SQLite deployment. *)
Lemma sqlite_store_is_inert_witness :
  scheme sqlite_deployment = "sqlite"%string
  /\ table (after (save_session sqlite_deployment answering 50 "alice" 0) one_document)
     = table one_document.
Proof.
  split; [reflexivity|].
  exact (proj1 (proj2 (proj2
           (sqlite_store_is_inert sqlite_deployment encrypt answering 50 10 "alice" 0
              one_document eq_refl)))).
Defined.

(** *** Start-up: the pool *)

Section StartupFacts.
Import Startup.
Variable urlparse : string -> parsed_url.

(** X24.  When the pool of a MySQL URL cannot be built, [initialize_db_pool]
    leaves [db_pool] at [None], also when it held a pool before; from then
    on [get_db_connection] returns [None] with the error that the pool is
    not initialized, [get_session] returns [None] and [save_session] returns
    without touching the table or its argument. *)
Theorem failed_pool_disables_store (database_url : string) (b : backend)
    (now : Z) (pid : string) (doc : loc) (w : world) :
  url_scheme (urlparse database_url) = "mysql"%string ->
  let cfg := deployment urlparse database_url false in
  initialize_db_pool urlparse database_url false (Some GamePool)
  = (None, [PoolInitFailed])
  /\ outcome (get_db_connection cfg b) w = Val None
  /\ errors (events (get_db_connection cfg b) w) = [PoolNotInitialized]
  /\ outcome (get_session cfg b pid) w = Val None
  /\ outcome (save_session cfg b now pid doc) w = Val tt
  /\ table (after (save_session cfg b now pid doc) w) = table w
  /\ heap (after (save_session cfg b now pid doc) w) = heap w.
Proof.
  intros Hscheme cfg.
  assert (Hcfg : cfg = Config "mysql" None).
  { unfold cfg, deployment, initialize_db_pool. by rewrite Hscheme. }
  split; [unfold initialize_db_pool; by rewrite Hscheme|].
  assert (Hfail : acquire_failure cfg b = Some PoolUnavailable) by (by rewrite Hcfg).
  pose proof (get_db_connection_run cfg b w) as Hconn. rewrite Hfail in Hconn.
  destruct (refused_run cfg id b PoolUnavailable w Hfail) as (Hread & Hwrite & _).
  unfold outcome, after.
  rewrite (events_app _ _ [Log ERROR (logged_for cfg PoolUnavailable)])
    by (by rewrite Hconn).
  by rewrite Hconn, Hread, Hwrite.
Qed.

(** *** Start-up: [scripts/init_db.py] *)

Lemma lstrip_slash_head (s : string) : String.get 0 (lstrip_slash s) <> Some "/"%char.
Proof.
  induction s as [|c s IH]; [done|].
  cbn [lstrip_slash]. destruct (Ascii.eqb_spec c "/") as [-> | Hc]; [done|].
  cbn. congruence.
Qed.


(** The loop of attempts on the numbers from [i] on. *)
Lemma retries_refused (srv : server) (n i : nat) :
  i + S n = max_retries ->
  (forall j, i <= j -> j < max_retries -> accepts srv j = false) ->
  exists evs,
    connect_with_retries srv (seq i (S n)) = (GaveUp, evs)
    /\ connects evs = S n /\ slept evs = retry_delay * n
    /\ tables_created evs = 0.
Proof.
  revert i. induction n as [|n IH]; intros i Hi Hall.
  - cbn [seq connect_with_retries]. rewrite Hall by lia.
    assert (Hlast : Nat.eqb (i + 1) max_retries = true) by (apply Nat.eqb_eq; lia).
    rewrite Hlast. by eexists.
  - change (seq i (S (S n))) with (i :: seq (S i) (S n)).
    cbn [connect_with_retries]. rewrite Hall by lia.
    assert (Hnot : Nat.eqb (i + 1) max_retries = false) by (apply Nat.eqb_neq; lia).
    rewrite Hnot.
    destruct (IH (S i) ltac:(lia) ltac:(intros; apply Hall; lia))
      as (evs & Hrun & Hc & Hs & Ht).
    rewrite Hrun. eexists. split; [done|].
    cbn. rewrite Hc, Hs, Ht. unfold retry_delay. split_and!; lia.
Qed.

Lemma retries_accepted (srv : server) (k n i : nat) :
  i <= k -> k < i + n -> k < max_retries ->
  accepts srv k = true ->
  (forall j, i <= j -> j < k -> accepts srv j = false) ->
  exists evs,
    connect_with_retries srv (seq i n) = (Connected, evs)
    /\ connects evs = S (k - i) /\ slept evs = retry_delay * (k - i)
    /\ tables_created evs = 0.
Proof.
  revert i. induction n as [|n IH]; intros i Hik Hkn Hk Hyes Hno; [lia|].
  change (seq i (S n)) with (i :: seq (S i) n). cbn [connect_with_retries].
  destruct (decide (i = k)) as [-> | Hne].
  - rewrite Hyes. eexists. split; [done|]. rewrite Nat.sub_diag. cbn. done.
  - rewrite Hno by lia.
    assert (Hnot : Nat.eqb (i + 1) max_retries = false) by (apply Nat.eqb_neq; lia).
    rewrite Hnot.
    destruct (IH (S i) ltac:(lia) ltac:(lia) Hk Hyes ltac:(intros; apply Hno; lia))
      as (evs & Hrun & Hc & Hs & Ht).
    rewrite Hrun. eexists. split; [done|].
    cbn. rewrite Hc, Hs, Ht. unfold retry_delay.
    replace (k - i) with (S (k - S i)) by lia. split_and!; lia.
Qed.

(** Either an attempt below [max_retries] is the first one accepted, or all
    are refused. *)
Lemma first_accepted (srv : server) (n : nat) :
  (forall j, j < n -> accepts srv j = false)
  \/ exists k, k < n /\ accepts srv k = true
       /\ forall j, j < k -> accepts srv j = false.
Proof.
  induction n as [|n [Hall | (k & Hk & Hyes & Hno)]].
  - left. lia.
  - destruct (accepts srv n) eqn:Hn.
    + right. exists n. split_and!; [lia|done|done].
    + left. intros j Hj. destruct (decide (j = n)) as [-> | Hne]; [done|].
      apply Hall. lia.
  - right. exists k. split_and!; [lia|done|done].
Qed.

Lemma connects_app (evs1 evs2 : list init_event) :
  connects (evs1 ++ evs2) = connects evs1 + connects evs2.
Proof. induction evs1 as [|[] evs1 IH]; cbn; lia. Qed.

Lemma slept_app (evs1 evs2 : list init_event) :
  slept (evs1 ++ evs2) = slept evs1 + slept evs2.
Proof. induction evs1 as [|[] evs1 IH]; cbn; lia. Qed.

Lemma tables_created_app (evs1 evs2 : list init_event) :
  tables_created (evs1 ++ evs2) = tables_created evs1 + tables_created evs2.
Proof. induction evs1 as [|[] evs1 IH]; cbn; lia. Qed.

(** What the script does after the loop adds no attempt and no sleep. *)
Lemma initialize_database_after_loop (srv : server) (schema : option (list row))
    (c : db_config) (e : loop_end) (evs : list init_event) :
  get_db_config_from_env urlparse (env_url srv) = Returned c ->
  connect_with_retries srv (seq 0 max_retries) = (e, evs) ->
  tables_created evs = 0 ->
  let run := initialize_database urlparse srv schema in
  connects run.2 = connects evs
  /\ slept run.2 = slept evs
  /\ (run.1 = schema /\ tables_created run.2 = 0
      \/ e = Connected /\ run.1 = create_if_absent schema /\ tables_created run.2 = 1)
  /\ (e = Connected -> once_connected srv = Healthy ->
      run.1 = create_if_absent schema /\ tables_created run.2 = 1
      /\ last run.2 = Some (InitLog INFO ConnectionClosed)).
Proof.
  intros Hcfg Hloop Hnone run. subst run.
  unfold initialize_database. rewrite Hcfg, Hloop.
  unfold create_table, clean_up, alive.
  destruct e, (once_connected srv) as [|[]| |];
    cbn [fst snd step_ok step_index Nat.ltb Nat.leb negb andb
         connects slept tables_created];
    rewrite ?connects_app, ?slept_app, ?tables_created_app, ?Hnone;
    cbn [connects slept tables_created app];
    rewrite ?Nat.add_0_r;
    (split_and!;
     [ done | done
     | first [ left; split; [done|lia] | right; split_and!; [done|done|lia] ]
     | try done ]).
  intros _ _. split_and!; [done|lia|].
  rewrite app_comm_cons, last_app. done.
Qed.

Lemma initialize_database_bounds (srv : server) (schema : option (list row)) :
  let run := initialize_database urlparse srv schema in
  connects run.2 <= max_retries
  /\ slept run.2 = retry_delay * (connects run.2 - 1)
  /\ tables_created run.2 <= 1
  /\ (run.1 = schema \/ run.1 = create_if_absent schema).
Proof.
  intros run.
  destruct (get_db_config_from_env urlparse (env_url srv)) as [c|e] eqn:Hcfg.
  2: { subst run. unfold initialize_database. rewrite Hcfg. cbn. split_and!; try lia.
       by left. }
  destruct (first_accepted srv max_retries) as [Hall | (k & Hk & Hyes & Hno)].
  - destruct (retries_refused srv 9 0 eq_refl ltac:(intros; by apply Hall))
      as (evs & Hloop & Hc & Hs & Ht).
    destruct (initialize_database_after_loop srv schema c _ _ Hcfg Hloop Ht)
      as (Hc' & Hs' & Hschema & _).
    fold run in Hc', Hs', Hschema. rewrite Hc', Hs', Hc, Hs.
    unfold max_retries, retry_delay. split_and!; [lia|lia| |].
    + destruct Hschema as [[_ ->] | (_ & _ & ->)]; lia.
    + destruct Hschema as [[-> _] | (_ & -> & _)]; [by left | by right].
  - destruct (retries_accepted srv k max_retries 0 ltac:(lia) ltac:(lia) Hk Hyes
                ltac:(intros; apply Hno; lia)) as (evs & Hloop & Hc & Hs & Ht).
    destruct (initialize_database_after_loop srv schema c _ _ Hcfg Hloop Ht)
      as (Hc' & Hs' & Hschema & _).
    fold run in Hc', Hs', Hschema. rewrite Hc', Hs', Hc, Hs.
    unfold max_retries, retry_delay in *. split_and!; [lia|f_equal; lia| |].
    + destruct Hschema as [[_ ->] | (_ & _ & ->)]; lia.
    + destruct Hschema as [[-> _] | (_ & -> & _)]; [by left | by right].
Qed.

(** X26.  A run of the script makes no more than ten connection attempts,
    sleeps five seconds after every attempt but the last, 45 seconds at
    most, and executes CREATE TABLE no more than once. *)
Theorem initialize_database_is_bounded (srv : server) (schema : option (list row)) :
  let run := initialize_database urlparse srv schema in
  connects run.2 <= max_retries
  /\ slept run.2 = retry_delay * (connects run.2 - 1)
  /\ slept run.2 <= 45
  /\ tables_created run.2 <= 1.
Proof.
  intros run.
  destruct (initialize_database_bounds srv schema) as (Hc & Hs & Ht & _).
  fold run in Hc, Hs, Ht. unfold max_retries, retry_delay in *. lia.
Qed.

(** X27.  When the table exists, a run of the script leaves its rows as they
    are, whatever the server does. *)
Theorem initialize_database_keeps_rows (srv : server) (rows : list row) :
  (initialize_database urlparse srv (Some rows)).1 = Some rows.
Proof.
  destruct (initialize_database_bounds srv (Some rows)) as (_ & _ & _ & [-> | ->]);
    done.
Qed.

(** X28.  When attempt [k] is the first one accepted and the server then
    answers, the script has made [k + 1] attempts and slept [5 k] seconds,
    the table exists afterwards, and the last thing logged is that the
    connection was closed. *)
Theorem initialize_database_first_success (srv : server)
    (schema : option (list row)) (c : db_config) (k : nat) :
  get_db_config_from_env urlparse (env_url srv) = Returned c ->
  k < max_retries ->
  accepts srv k = true ->
  (forall j, j < k -> accepts srv j = false) ->
  once_connected srv = Healthy ->
  let run := initialize_database urlparse srv schema in
  run.1 = Some (default [] schema)
  /\ connects run.2 = S k
  /\ slept run.2 = retry_delay * k
  /\ tables_created run.2 = 1
  /\ last run.2 = Some (InitLog INFO ConnectionClosed).
Proof.
  intros Hcfg Hk Hyes Hno Hhealthy run.
  destruct (retries_accepted srv k max_retries 0 ltac:(lia) ltac:(lia) Hk Hyes
              ltac:(intros; apply Hno; lia)) as (evs & Hloop & Hc & Hs & Ht).
  destruct (initialize_database_after_loop srv schema c _ _ Hcfg Hloop Ht)
    as (Hc' & Hs' & _ & Hdone).
  destruct (Hdone eq_refl Hhealthy) as (Hschema & Htables & Hlast).
  fold run in Hc', Hs', Hschema, Htables, Hlast.
  rewrite Hc', Hs', Hc, Hs, Nat.sub_0_r. done.
Qed.

(** X29.  When all ten attempts are refused the script has slept 45 seconds,
    leaves the database as it was, executes no statement and ends with the
    logged error. *)
Theorem initialize_database_gives_up (srv : server) (schema : option (list row))
    (c : db_config) :
  get_db_config_from_env urlparse (env_url srv) = Returned c ->
  (forall j, j < max_retries -> accepts srv j = false) ->
  let run := initialize_database urlparse srv schema in
  run.1 = schema
  /\ connects run.2 = 10
  /\ slept run.2 = 45
  /\ tables_created run.2 = 0
  /\ last run.2 = Some (InitLog ERROR (InitializationFailed MySQLError)).
Proof.
  intros Hcfg Hall run.
  destruct (retries_refused srv 9 0 eq_refl ltac:(intros; by apply Hall))
    as (evs & Hloop & Hc & Hs & Ht).
  change (seq 0 10) with (seq 0 max_retries) in Hloop.
  subst run. unfold initialize_database. rewrite Hcfg, Hloop. cbn [fst snd].
  cbn [connects slept tables_created].
  rewrite connects_app, slept_app, tables_created_app, Hc, Hs, Ht.
  split_and!; try done.
  rewrite app_comm_cons, last_app. done.
Qed.

End StartupFacts.

(** *** The start-up at a sample URL *)

Import Startup.

Lemma mysql_url_config :
  get_db_config_from_env sample_urlparse (Some mysql_url)
  = Returned (DbConfig None None None None "game").
Proof. reflexivity. Defined.

(** X24 at a MySQL URL. *)
Lemma failed_pool_disables_store_witness :
  url_scheme (sample_urlparse mysql_url) = "mysql"%string
  /\ outcome (get_session (deployment sample_urlparse mysql_url false) answering "alice")
       alice_saved
     = Val None.
Proof.
  split; [reflexivity|].
  exact (proj1 (proj2 (proj2 (proj2
           (failed_pool_disables_store sample_urlparse mysql_url answering 50
              "alice" 0 alice_saved eq_refl))))).
Defined.

(** X28 at a server that accepts the third attempt. *)
Lemma initialize_database_first_success_witness :
  accepts slow_server 2 = true
  /\ connects (initialize_database sample_urlparse slow_server None).2 = 3
  /\ slept (initialize_database sample_urlparse slow_server None).2 = 10.
Proof.
  split; [reflexivity|].
  assert (Hk : 2 < max_retries) by (unfold max_retries; lia).
  assert (Hno : forall j, j < 2 -> accepts slow_server j = false).
  { intros [|[|j]] Hj; [reflexivity | reflexivity | lia]. }
  destruct (initialize_database_first_success sample_urlparse slow_server None
              _ 2 mysql_url_config Hk eq_refl Hno eq_refl) as (_ & Hc & Hs & _).
  split; [exact Hc | exact Hs].
Defined.

(** X29 at a server that accepts no attempt. *)
Lemma initialize_database_gives_up_witness :
  accepts dead_server 9 = false
  /\ (initialize_database sample_urlparse dead_server None).1 = None
  /\ slept (initialize_database sample_urlparse dead_server None).2 = 45.
Proof.
  split; [reflexivity|].
  assert (Hall : forall j, j < max_retries -> accepts dead_server j = false)
    by (intros j _; reflexivity).
  destruct (initialize_database_gives_up sample_urlparse dead_server None
              _ mysql_url_config Hall) as (Hschema & _ & Hs & _).
  split; [exact Hschema | exact Hs].
Defined.

End Properties.
